(** * FreePBX-UI: a shallow embedding of [src/App.jsx]

    The development follows the layout of the source file: the JavaScript
    primitives the code relies on, the mock data, the API layer, the realtime
    status handler, the CSV helper, the extensions panel with its optimistic
    updates, the call-log pager and the audit log.  Definitions come first,
    theorems after them. *)

From Stdlib Require Import ZArith List String Ascii Bool Lia DecimalString.
From Stdlib Require Import Permutation.
Import ListNotations.
Open Scope string_scope.
Open Scope Z_scope.

(* ===================================================================== *)
(** * JavaScript primitives used by the source *)
(* ===================================================================== *)

(** Numbers.  Identifiers, counters and durations are integers; the two
    non-integer values the code can produce are [-Infinity] (from
    [Math.max()] of nothing) and [NaN] (from a missing number).  [Fin z]
    stands for the double that is the integer [z]; the arithmetic below is
    the arithmetic of doubles as long as its arguments and results are of
    magnitude at most 2^53, beyond which doubles round. *)
Inductive num : Type :=
| NaN
| NegInf
| Fin (z : Z).

(** [a === b] on two numbers: [NaN] equals nothing, itself included. *)
Definition num_eqb (a b : num) : bool :=
  match a, b with
  | Fin x, Fin y => x =? y
  | NegInf, NegInf => true
  | _, _ => false
  end.

(** [a + 1], for [a] of magnitude below 2^53: from 2^53 on the sum of the
    code is rounded (2^53 + 1 is 2^53 again) and is not the one given
    here.  Statements that depend on the sum carry [safe_integer]. *)
Definition num_succ (a : num) : num :=
  match a with
  | Fin z => Fin (z + 1)
  | NegInf => NegInf
  | NaN => NaN
  end.

Definition num_max (a b : num) : num :=
  match a, b with
  | NaN, _ | _, NaN => NaN
  | NegInf, x | x, NegInf => x
  | Fin x, Fin y => Fin (Z.max x y)
  end.

(** [Math.max(...l)]: [-Infinity] when [l] is empty. *)
Definition Math_max (l : list num) : num := fold_left num_max l NegInf.

(** [ToNumber] of a property that may be missing ([undefined] gives [NaN]). *)
Definition to_number (p : option num) : num :=
  match p with
  | Some n => n
  | None => NaN
  end.

(** [a === b] on two properties holding numbers, [None] being [undefined]. *)
Definition strict_eq (a b : option num) : bool :=
  match a, b with
  | None, None => true
  | Some x, Some y => num_eqb x y
  | _, _ => false
  end.

Definition string_of_Z (z : Z) : string := NilZero.string_of_int (Z.to_int z).

(** [String(n)] and [`${n}`]. *)
Definition String_of_num (n : num) : string :=
  match n with
  | NaN => "NaN"
  | NegInf => "-Infinity"
  | Fin z => string_of_Z z
  end.

(** [`${p}`] for a property that may be [undefined]. *)
Definition tmpl_num (p : option num) : string :=
  match p with
  | Some n => String_of_num n
  | None => "undefined"
  end.

Definition tmpl_str (p : option string) : string :=
  match p with
  | Some s => s
  | None => "undefined"
  end.

Definition comma : ascii := ","%char.
Definition dquote : ascii := "034"%char.
Definition newline : ascii := "010"%char.

(** [s.includes(c)] for a one-character needle. *)
Fixpoint includes (c : ascii) (s : string) : bool :=
  match s with
  | EmptyString => false
  | String a rest => Ascii.eqb a c || includes c rest
  end.

(** [s.replace] with the global pattern for the double quote: every double
    quote is written twice. *)
Fixpoint double_quotes (s : string) : string :=
  match s with
  | EmptyString => EmptyString
  | String a rest =>
      if Ascii.eqb a dquote
      then String dquote (String dquote (double_quotes rest))
      else String a (double_quotes rest)
  end.

(** [l.join(sep)]. *)
Fixpoint join (sep : string) (l : list string) : string :=
  match l with
  | [] => ""
  | [x] => x
  | x :: rest => x ++ sep ++ join sep rest
  end.

(** [s.padStart(n, c)] for a one-character pad. *)
Definition padStart (n : nat) (c : ascii) (s : string) : string :=
  string_of_list_ascii (repeat c (n - String.length s)) ++ s.

(** [l.slice(start, stop)], negative bounds counting from the end. *)
Definition slice {A : Type} (l : list A) (start stop : Z) : list A :=
  let len := Z.of_nat (List.length l) in
  let k := if start <? 0 then Z.max (len + start) 0 else Z.min start len in
  let fin := if stop <? 0 then Z.max (len + stop) 0 else Z.min stop len in
  firstn (Z.to_nat (fin - k)) (skipn (Z.to_nat k) l).

(** [l.findIndex(p)]: the first index satisfying [p], or [-1]. *)
Fixpoint findIndex {A : Type} (p : A -> bool) (l : list A) : Z :=
  match l with
  | [] => -1
  | x :: rest =>
      if p x then 0
      else let i := findIndex p rest in if i <? 0 then -1 else i + 1
  end.

(** [l[i] = x] for an index inside the array. *)
Fixpoint set_at {A : Type} (l : list A) (i : nat) (x : A) : list A :=
  match l, i with
  | [], _ => []
  | _ :: rest, O => x :: rest
  | y :: rest, S j => y :: set_at rest j x
  end.

(** [l.splice(i, 1)]. *)
Fixpoint splice1 {A : Type} (l : list A) (i : nat) : list A :=
  match l, i with
  | [], _ => []
  | _ :: rest, O => rest
  | y :: rest, S j => y :: splice1 rest j
  end.

(* ===================================================================== *)
(** * Extension records *)
(* ===================================================================== *)

(** The own properties of an extension object; [None] is a missing key. *)
Record fields : Type := mkFields {
  id : option num;
  tech : option string;
  name : option string;
  callerid : option string;
  voicemail : option bool;
  vm_email : option string;
  __optimistic : option bool
}.

Definition no_fields : fields := mkFields None None None None None None None.

Definition over {A : Type} (a b : option A) : option A :=
  match b with
  | Some _ => b
  | None => a
  end.

(** [{ ...a, ...b }]. *)
Definition spread (a b : fields) : fields :=
  {| id := over (id a) (id b);
     tech := over (tech a) (tech b);
     name := over (name a) (name b);
     callerid := over (callerid a) (callerid b);
     voicemail := over (voicemail a) (voicemail b);
     vm_email := over (vm_email a) (vm_email b);
     __optimistic := over (__optimistic a) (__optimistic b) |}.

(** An object is its properties together with its identity: [r === o] on
    objects compares [oid].  Objects are never mutated in place by the
    source, so two references to one object always show the same fields. *)
Record obj : Type := mkObj {
  oid : nat;
  props : fields
}.

(** What a list cell or an awaited result may hold: an object, or a value
    that is no object.  [undefined] stands for [undefined] and for [null]
    alike: the source reads properties of such a value (which throws for
    both), compares it with objects by identity (which fails for both) and
    spreads it (which adds no key for either), and does nothing else with
    it. *)
Inductive value : Type :=
| undefined
| Obj (o : obj).

(** [r === o] where [o] is an object. *)
Definition same_object (r : value) (o : obj) : bool :=
  match r with
  | Obj x => Nat.eqb (oid x) (oid o)
  | undefined => false
  end.

(** [r.id]: reading a property of [undefined] throws a [TypeError]. *)
Definition get_id (r : value) : option (option num) :=
  match r with
  | Obj x => Some (id (props x))
  | undefined => None
  end.

(** [l.map(f)] and [l.filter(p)] for callbacks that may throw. *)
Fixpoint map_throw {A B : Type} (f : A -> option B) (l : list A) : option (list B) :=
  match l with
  | [] => Some []
  | x :: rest =>
      match f x with
      | None => None
      | Some y =>
          match map_throw f rest with
          | None => None
          | Some ys => Some (y :: ys)
          end
      end
  end.

Fixpoint filter_throw {A : Type} (p : A -> option bool) (l : list A) : option (list A) :=
  match l with
  | [] => Some []
  | x :: rest =>
      match p x with
      | None => None
      | Some b =>
          match filter_throw p rest with
          | None => None
          | Some ys => Some (if b then x :: ys else ys)
          end
      end
  end.

(* ===================================================================== *)
(** * Application state and the monad of the event handlers *)
(* ===================================================================== *)

(** One line of the audit log: [{ ...entry, ts, user }]. *)
Record audit_entry : Type := mkEntry {
  action : string;
  detail : string;
  ts : Z;
  user : string
}.

(** The session configuration held by [App]. *)
Record config : Type := mkConfig {
  baseURL : string;
  apiKey : string;
  useMock : bool;
  ariWS : string
}.

(** Everything the handlers read or write: the module-level mock store, the
    [data] state of [ExtensionsPanel], the [audit] and [role] states of
    [App], the wall clock read by [Date.now()], and the next unused object
    identity. *)
Record appstate : Type := mkApp {
  MOCK_EXTENSIONS : list obj;
  data : list value;
  audit : list audit_entry;
  role : string;
  clock : Z;
  fresh : nat
}.

(** A handler either yields a result and a new state, or an updater threw
    while React was rendering and the component tree is gone ([None]). *)
Definition M (A : Type) : Type := appstate -> option (A * appstate).

Definition ret {A : Type} (x : A) : M A := fun st => Some (x, st).

Definition bind {A B : Type} (c : M A) (k : A -> M B) : M B :=
  fun st =>
    match c st with
    | None => None
    | Some (x, st') => k x st'
    end.

Notation "x <- c ;; k" := (bind c (fun x => k))
  (at level 61, c at next level, right associativity).
Notation "c ;;; k" := (bind c (fun _ => k))
  (at level 61, right associativity).

Definition get : M appstate := fun st => Some (st, st).

Definition set_store (l : list obj) : M unit :=
  fun st => Some (tt, mkApp l (data st) (audit st) (role st) (clock st) (fresh st)).

(** Time passing while a request is in flight: [Date.now()] moves on by
    [dt] milliseconds. *)
Definition sleep (dt : Z) : M unit :=
  fun st =>
    Some (tt, mkApp (MOCK_EXTENSIONS st) (data st) (audit st) (role st)
                    (clock st + dt) (fresh st)).

(** [setRole(e.target.value)]: the role selector of the header. *)
Definition setRole (r : string) : M unit :=
  fun st =>
    Some (tt, mkApp (MOCK_EXTENSIONS st) (data st) (audit st) r (clock st)
                    (fresh st)).

(** Allocation of a new object: [{ ... }], a clone, or a parsed response. *)
Definition new_object (f : fields) : M obj :=
  fun st =>
    Some (mkObj (fresh st) f,
          mkApp (MOCK_EXTENSIONS st) (data st) (audit st) (role st) (clock st)
                (S (fresh st))).

(** [setData(d => f(d))]; the updater may throw. *)
Definition setData (f : list value -> option (list value)) : M unit :=
  fun st =>
    match f (data st) with
    | None => None
    | Some d =>
        Some (tt, mkApp (MOCK_EXTENSIONS st) d (audit st) (role st) (clock st)
                        (fresh st))
    end.

(** The updater of [pushAudit]:
    [a => [{ ...entry, ts: Date.now(), user: role }, ...a].slice(0, 200)]. *)
Definition audit_updater (who : string) (now : Z) (act det : string)
  (a : list audit_entry) : list audit_entry :=
  slice (mkEntry act det now who :: a) 0 200.

(** [pushAudit({ action, detail })] as closed over the role [who]. *)
Definition pushAudit (who : string) (act det : string) : M unit :=
  fun st =>
    Some (tt, mkApp (MOCK_EXTENSIONS st) (data st)
                    (audit_updater who (clock st) act det (audit st))
                    (role st) (clock st) (fresh st)).

(** What [AuditPanel] shows: one line per entry, in the order of the log. *)
Definition AuditPanel (entries : list audit_entry)
  : list (Z * string * string * string) :=
  map (fun e => (ts e, action e, detail e, user e)) entries.

(* ===================================================================== *)
(** * Mock data *)
(* ===================================================================== *)

Definition mock_row (i : Z) (nm cid : string) (vm : bool) (mail : string) : fields :=
  mkFields (Some (Fin i)) (Some "PJSIP") (Some nm) (Some cid) (Some vm)
           (Some mail) None.

Definition MOCK_EXTENSIONS_init : list obj :=
  [ mkObj 0 (mock_row 1001 "Reception" "Reception <1001>" true "reception@example.com");
    mkObj 1 (mock_row 1002 "Sales" "Sales <1002>" true "sales@example.com");
    mkObj 2 (mock_row 1003 "Support" "Support <1003>" false "") ].

(** The state when the page has been opened: the store holds the three
    fixtures, the panel has not loaded yet, the log is empty. *)
Definition app_init : appstate :=
  mkApp MOCK_EXTENSIONS_init [] [] "admin" 0 3.

(* ===================================================================== *)
(** * API layer *)
(* ===================================================================== *)

(** What the network does to a request: it fails, or it answers with
    [res.data]. *)
Inductive response (A : Type) : Type :=
| Reject
| Resolve (body : A).
Arguments Reject {A}.
Arguments Resolve {A} body.

(** A settled promise. *)
Inductive outcome (A : Type) : Type :=
| Rejected
| Resolved (v : A).
Arguments Rejected {A}.
Arguments Resolved {A} v.

(** [res.data] for one record.  The answers covered are those whose body is
    a JSON object, [Resolve (Some f)], which is parsed into a fresh object,
    and those whose body is the JSON value [null], [Resolve None], which
    gives a value that is no object.  Any other body, such as the empty text
    of an answer without content, a number or an array, gives a value that
    is neither, has no counterpart in [response (option fields)], and is not
    covered. *)
Definition parsed_record (net : response (option fields)) : M (outcome value) :=
  match net with
  | Reject => ret Rejected
  | Resolve None => ret (Resolved undefined)
  | Resolve (Some f) => o <- new_object f ;; ret (Resolved (Obj o))
  end.

Fixpoint new_objects (l : list fields) : M (list value) :=
  match l with
  | [] => ret []
  | f :: rest =>
      o <- new_object f ;;
      os <- new_objects rest ;;
      ret (Obj o :: os)
  end.

(** [structuredClone(l)]: a new object for every element. *)
Definition structuredClone (l : list obj) : M (list value) :=
  new_objects (map props l).

Definition apiFetchExtensions (cfg : config) (net : response (list fields))
  : M (outcome (list value)) :=
  if useMock cfg then
    st <- get ;;
    rows <- structuredClone (MOCK_EXTENSIONS st) ;;
    ret (Resolved rows)
  else
    match net with
    | Reject => ret Rejected
    | Resolve l => rows <- new_objects l ;; ret (Resolved rows)
    end.

(** [p || d] on a string property. *)
Definition or_default (p : option string) (d : string) : string :=
  match p with
  | Some s => if String.eqb s "" then d else s
  | None => d
  end.

Definition apiCreateExtension (cfg : config) (net : response (option fields))
  (payload : fields) : M (outcome value) :=
  if useMock cfg then
    st <- get ;;
    let nextId :=
      num_succ (Math_max (map (fun e => to_number (id (props e)))
                              (MOCK_EXTENSIONS st))) in
    row <- new_object
             (spread (mkFields (Some nextId)
                               (Some (or_default (tech payload) "PJSIP"))
                               None None None None None)
                     payload) ;;
    set_store (MOCK_EXTENSIONS st ++ [row]) ;;;
    ret (Resolved (Obj row))
  else parsed_record net.

(** [l[i]] for an index that may be [-1]. *)
Definition at_index (l : list obj) (i : Z) : value :=
  if i <? 0 then undefined
  else match nth_error l (Z.to_nat i) with
       | Some o => Obj o
       | None => undefined
       end.

(** [...v] inside an object literal: [undefined] contributes no key. *)
Definition spread_source (v : value) : fields :=
  match v with
  | Obj o => props o
  | undefined => no_fields
  end.

Definition apiUpdateExtension (cfg : config) (net : response (option fields))
  (ident : option num) (payload : fields) : M (outcome value) :=
  if useMock cfg then
    st <- get ;;
    let i := findIndex (fun e => strict_eq (id (props e)) ident)
                       (MOCK_EXTENSIONS st) in
    (if 0 <=? i
     then
       merged <- new_object
                   (spread (spread_source (at_index (MOCK_EXTENSIONS st) i))
                           payload) ;;
       set_store (set_at (MOCK_EXTENSIONS st) (Z.to_nat i) merged)
     else ret tt) ;;;
    st' <- get ;;
    ret (Resolved (at_index (MOCK_EXTENSIONS st') i))
  else parsed_record net.

(** The acknowledgement [{ ok: true }]. *)
Record ack : Type := mkAck { ok : bool }.

Definition apiDeleteExtension (cfg : config) (net : response ack)
  (ident : option num) : M (outcome ack) :=
  if useMock cfg then
    st <- get ;;
    let idx := findIndex (fun e => strict_eq (id (props e)) ident)
                         (MOCK_EXTENSIONS st) in
    (if 0 <=? idx
     then set_store (splice1 (MOCK_EXTENSIONS st) (Z.to_nat idx))
     else ret tt) ;;;
    ret (Resolved (mkAck true))
  else
    match net with
    | Reject => ret Rejected
    | Resolve a => ret (Resolved a)
    end.

(* ===================================================================== *)
(** * The extension editor *)
(* ===================================================================== *)

(** One change made in the form: each input rewrites one key with
    [setForm({ ...form, key: v })]. *)
Inductive edit : Type :=
| SetTech (v : string)
| SetName (v : string)
| SetCallerid (v : string)
| SetVoicemail (v : bool)
| SetVmEmail (v : string).

Definition default_form : fields :=
  mkFields None (Some "PJSIP") (Some "") (Some "") (Some false) (Some "") None.

(** [initial || { tech: "PJSIP", ... }]. *)
Definition initial_form (initial : option obj) : fields :=
  match initial with
  | Some r => props r
  | None => default_form
  end.

Definition apply_edit (form : fields) (e : edit) : fields :=
  match e with
  | SetTech v => spread form (mkFields None (Some v) None None None None None)
  | SetName v => spread form (mkFields None None (Some v) None None None None)
  | SetCallerid v => spread form (mkFields None None None (Some v) None None None)
  | SetVoicemail v => spread form (mkFields None None None None (Some v) None None)
  | SetVmEmail v => spread form (mkFields None None None None None (Some v) None)
  end.

(** The form handed to [onSubmit] after the edits [es]. *)
Definition ExtensionModal (initial : option obj) (es : list edit) : fields :=
  fold_left apply_edit es (initial_form initial).

(* ===================================================================== *)
(** * Extensions panel: optimistic create, update and delete *)
(* ===================================================================== *)

(** [load]: on a rejection the list is left as it is. *)
Definition load (cfg : config) (net : response (list fields)) : M unit :=
  r <- apiFetchExtensions cfg net ;;
  match r with
  | Resolved rows => setData (fun _ => Some rows)
  | Rejected => ret tt
  end.

(** [createExt] up to its [await]: the placeholder is inserted, the action
    is logged and the request is issued.  [rnd] is
    [Math.floor(Math.random() * 1e9)]. *)
Definition createExt_start (cfg : config) (net : response (option fields))
  (rnd : Z) (form : fields) : M (string * obj * outcome value) :=
  st <- get ;;
  let who := role st in
  optimistic <- new_object
                  (spread (spread (mkFields (Some (Fin rnd)) None None None
                                            None None None) form)
                          (mkFields None None None None None None (Some true))) ;;
  setData (fun d => Some (Obj optimistic :: d)) ;;;
  pushAudit who "create_extension"
            (tmpl_str (name form) ++ " (" ++ tmpl_str (callerid form) ++ ")") ;;;
  r <- apiCreateExtension cfg net form ;;
  ret (who, optimistic, r).

(** [createExt] after its [await]. *)
Definition createExt_settle (who : string) (form : fields) (optimistic : obj)
  (r : outcome value) : M unit :=
  match r with
  | Resolved saved =>
      setData (fun d =>
        Some (map (fun r => if same_object r optimistic then saved else r) d))
  | Rejected =>
      setData (fun d =>
        Some (filter (fun r => negb (same_object r optimistic)) d)) ;;;
      pushAudit who "rollback_create_extension" (tmpl_str (name form))
  end.

(** The whole of [createExt] when nothing else happens while the request,
    which takes [dt] milliseconds, is in flight. *)
Definition createExt (cfg : config) (net : response (option fields))
  (dt : Z) (rnd : Z) (form : fields) : M unit :=
  p <- createExt_start cfg net rnd form ;;
  let '(who, optimistic, r) := p in
  sleep dt ;;;
  createExt_settle who form optimistic r.

(** [d.map(r => (r.id === row.id ? x : r))]. *)
Definition replace_by_id (row : obj) (x : value) (d : list value)
  : option (list value) :=
  map_throw (fun r =>
    match get_id r with
    | None => None
    | Some i => Some (if strict_eq i (id (props row)) then x else r)
    end) d.

Definition saveEdit_start (cfg : config) (net : response (option fields))
  (row : obj) (form : fields) : M (string * outcome value) :=
  st <- get ;;
  let who := role st in
  updated <- new_object (spread (props row) form) ;;
  setData (replace_by_id row (Obj updated)) ;;;
  pushAudit who "update_extension" (tmpl_num (id (props row))) ;;;
  r <- apiUpdateExtension cfg net (id (props row)) form ;;
  ret (who, r).

Definition saveEdit_settle (who : string) (row : obj) (r : outcome value)
  : M unit :=
  let prev := row in
  match r with
  | Resolved saved => setData (replace_by_id row saved)
  | Rejected =>
      setData (replace_by_id row (Obj prev)) ;;;
      pushAudit who "rollback_update_extension" (tmpl_num (id (props row)))
  end.

Definition saveEdit (cfg : config) (net : response (option fields))
  (dt : Z) (row : obj) (form : fields) : M unit :=
  p <- saveEdit_start cfg net row form ;;
  let '(who, r) := p in
  sleep dt ;;;
  saveEdit_settle who row r.

(** [d.filter(r => r.id !== id)]. *)
Definition remove_by_id (ident : option num) (d : list value)
  : option (list value) :=
  filter_throw (fun r =>
    match get_id r with
    | None => None
    | Some i => Some (negb (strict_eq i ident))
    end) d.

(** [deleteExt] up to its [await]; [yes] is the answer to [confirm].  The
    list [prev] captured for a rollback is returned with the outcome. *)
Definition deleteExt_start (cfg : config) (net : response ack)
  (yes : bool) (ident : option num)
  : M (option (string * list value * outcome ack)) :=
  if negb yes then ret None
  else
    st <- get ;;
    let who := role st in
    let prev := data st in
    setData (remove_by_id ident) ;;;
    pushAudit who "delete_extension" (tmpl_num ident) ;;;
    r <- apiDeleteExtension cfg net ident ;;
    ret (Some (who, prev, r)).

Definition deleteExt_settle (who : string) (prev : list value)
  (ident : option num) (r : outcome ack) : M unit :=
  match r with
  | Resolved _ => ret tt
  | Rejected =>
      setData (fun _ => Some prev) ;;;
      pushAudit who "rollback_delete_extension" (tmpl_num ident)
  end.

Definition deleteExt (cfg : config) (net : response ack)
  (dt : Z) (yes : bool) (ident : option num) : M unit :=
  p <- deleteExt_start cfg net yes ident ;;
  match p with
  | None => ret tt
  | Some (who, prev, r) => sleep dt ;;; deleteExt_settle who prev ident r
  end.

(** What the user can do in the panel: [New] opens the editor empty and
    submits; [EditRow i] opens it on the [i]-th displayed row and submits;
    [DeleteRow i] presses Delete on that row and confirms. *)
Inductive click : Type :=
| New (rnd : Z) (es : list edit)
| EditRow (i : nat) (es : list edit)
| DeleteRow (i : nat).

Definition mock_cfg : config := mkConfig "https://your-freepbx17/api" "" true "".

(** One user action in mock mode, the request settling at once and before
    the next action. *)
Definition do_click (c : click) : M unit :=
  match c with
  | New rnd es => createExt mock_cfg Reject 0 rnd (ExtensionModal None es)
  | EditRow i es =>
      st <- get ;;
      match nth_error (data st) i with
      | Some (Obj r) => saveEdit mock_cfg Reject 0 r (ExtensionModal (Some r) es)
      | _ => ret tt
      end
  | DeleteRow i =>
      st <- get ;;
      match nth_error (data st) i with
      | Some (Obj r) => deleteExt mock_cfg Reject 0 true (id (props r))
      | _ => ret tt
      end
  end.

Fixpoint do_clicks (cs : list click) : M unit :=
  match cs with
  | [] => ret tt
  | c :: rest => do_click c ;;; do_clicks rest
  end.

(** The page as it is after opening it in mock mode and doing [cs]. *)
Definition session (cs : list click) : option appstate :=
  match (load mock_cfg Reject ;;; do_clicks cs) app_init with
  | Some (_, st) => Some st
  | None => None
  end.

(** [r.id === i] for a displayed row, [false] on a row that is not an
    object. *)
Definition has_id (i : option num) (r : value) : bool :=
  match r with
  | Obj x => strict_eq (id (props x)) i
  | undefined => false
  end.

Definition is_object (r : value) : bool :=
  match r with
  | Obj _ => true
  | undefined => false
  end.

(** Every displayed row is an object. *)
Definition all_objects (d : list value) : bool := forallb is_object d.

(** Every displayed object was allocated before [fresh]. *)
Definition heap_ok (st : appstate) : bool :=
  forallb (fun r => match r with
                    | Obj x => Nat.ltb (oid x) (fresh st)
                    | undefined => true
                    end) (data st).

(** A call of [pushAudit] with the time and the role it was made under. *)
Record push : Type := mkPush {
  p_who : string;
  p_now : Z;
  p_action : string;
  p_detail : string
}.

Definition stamped (p : push) : audit_entry :=
  mkEntry (p_action p) (p_detail p) (p_now p) (p_who p).

(** The log after the calls [ps], made in that order on the log [a]. *)
Definition push_all (ps : list push) (a : list audit_entry) : list audit_entry :=
  fold_left (fun a p => audit_updater (p_who p) (p_now p) (p_action p)
                                      (p_detail p) a) ps a.

(** The page after the fixtures have been loaded in mock mode. *)
Definition loaded : appstate :=
  match load mock_cfg Reject app_init with
  | Some (_, st) => st
  | None => app_init
  end.

(** The same page over a store that holds no record. *)
Definition orphaned : appstate :=
  mkApp [] (data loaded) [] "admin" 0 (fresh loaded).

(** A configuration that talks to a real server. *)
Definition remote_cfg : config :=
  mkConfig "https://pbx.example.com/admin/api" "token" false "".

(** A create whose request, sent by an admin, is rejected after 50 ms,
    the role selector having been moved to helpdesk in between. *)
Definition create_across_role_change : M unit :=
  p <- createExt_start remote_cfg Reject 123456 default_form ;;
  let '(who, optimistic, r) := p in
  sleep 50 ;;;
  setRole "helpdesk" ;;;
  createExt_settle who default_form optimistic r.

(** The fields shown by the panel and held by the store, for comparing. *)
Definition shown (d : list value) : list (option fields) :=
  map (fun r => match r with Obj o => Some (props o) | undefined => None end) d.

Definition stored (l : list obj) : list (option fields) :=
  map (fun o => Some (props o)) l.

(** The identifier of a record of the store. *)
Definition key (e : obj) : option num := id (props e).

(** [f.id === k] on what [shown] and [stored] list. *)
Definition key_is (k : option num) (x : option fields) : bool :=
  match x with
  | Some f => strict_eq (id f) k
  | None => false
  end.

(** An identifier that is an integer. *)
Definition finite (k : option num) : Prop := exists z, k = Some (Fin z).

(** [Number.MAX_SAFE_INTEGER], which is 2^53 - 1. *)
Definition MAX_SAFE_INTEGER : Z := 9007199254740991.

(** [Number.isSafeInteger(k)]: an integer of magnitude at most 2^53 - 1.
    On such a number [k + 1] is exact in double precision. *)
Definition safe_integer (k : option num) : Prop :=
  exists z, k = Some (Fin z) /\ - MAX_SAFE_INTEGER <= z <= MAX_SAFE_INTEGER.

(** The panel mirrors the store: it shows the records of the store, each
    once, in some order; the identifiers of the store are integers, no two
    of them equal; and the displayed objects are older than [fresh]. *)
Record mirrors (st : appstate) : Prop := mkMirrors {
  mirror_heap : heap_ok st = true;
  mirror_rows : Permutation (shown (data st)) (stored (MOCK_EXTENSIONS st));
  mirror_finite : Forall (fun e => finite (key e)) (MOCK_EXTENSIONS st);
  mirror_nodup : NoDup (map key (MOCK_EXTENSIONS st))
}.

(** No create of the sequence [cs], run from [st], meets an empty store. *)
Fixpoint creates_on_records (cs : list click) (st : appstate) : Prop :=
  match cs with
  | [] => True
  | c :: rest =>
      match c with
      | New _ _ => MOCK_EXTENSIONS st <> []
      | _ => True
      end
      /\ forall st', do_click c st = Some (tt, st') ->
                     creates_on_records rest st'
  end.

(* ===================================================================== *)
(** * Realtime status feed *)
(* ===================================================================== *)

(** Parsed JSON.  The own properties of an object are kept in the order
    [Object.keys] lists them, each key once. *)
#[local] Set Warnings "-register-all".
Inductive json : Type :=
| JNull
| JBool (b : bool)
| JNum (z : Z)
| JStr (s : string)
| JArr (items : list json)
| JObj (members : list (string * json)).

Fixpoint lookup (k : string) (members : list (string * json)) : option json :=
  match members with
  | [] => None
  | (k', v) :: rest => if String.eqb k' k then Some v else lookup k rest
  end.

(** [v.k]: a [TypeError] on [null] (outer [None]); [undefined] (inner
    [None]) when the key is missing or [v] is a number, string, boolean or
    array. *)
Definition prop (v : json) (k : string) : option (option json) :=
  match v with
  | JNull => None
  | JObj members => Some (lookup k members)
  | _ => Some None
  end.

(** Truthiness of a value that may be [undefined]. *)
Definition truthy (v : option json) : bool :=
  match v with
  | None => false
  | Some JNull => false
  | Some (JBool b) => b
  | Some (JNum z) => negb (z =? 0)
  | Some (JStr s) => negb (String.eqb s "")
  | Some (JArr _) => true
  | Some (JObj _) => true
  end.

Definition trunk (nm state : string) (latency_ms : Z) : json :=
  JObj [("name", JStr nm); ("state", JStr state); ("latency_ms", JNum latency_ms)].

Definition queue (nm : string) (agents logged_in waiting : Z) : json :=
  JObj [("name", JStr nm); ("agents", JNum agents);
        ("logged_in", JNum logged_in); ("waiting", JNum waiting)].

Definition MOCK_STATUS : json :=
  JObj [("trunks", JArr [trunk "SIP Trunk AU-East" "Registered" 38;
                         trunk "SIP Trunk AU-West" "Reachable" 182]);
        ("queues", JArr [queue "600 Support" 4 3 0;
                         queue "700 Sales" 6 5 1])].

Section Feed.

(** [JSON.parse]: [None] when it throws a [SyntaxError]. *)
Variable JSON_parse : string -> option json.

(** [ws.onmessage]: the [status] state after the event carrying [data]. *)
Definition onmessage (data : string) (status : json) : json :=
  match JSON_parse data with
  | None => status
  | Some msg =>
      match prop msg "trunks" with
      | None => status
      | Some t =>
          if truthy t then msg
          else match prop msg "queues" with
               | None => status
               | Some q => if truthy q then msg else status
               end
      end
  end.

(** [useAriStatus]: the snapshot after the events [msgs] have arrived on
    the socket, or the static mock when the feed is off. *)
Definition useAriStatus (cfg : config) (msgs : list string) : json :=
  if useMock cfg || String.eqb (ariWS cfg) "" then MOCK_STATUS
  else fold_left (fun status d => onmessage d status) msgs MOCK_STATUS.

End Feed.

(* ===================================================================== *)
(** * CSV export *)
(* ===================================================================== *)

(** [String(v)]. *)
Fixpoint String_of (v : json) : string :=
  match v with
  | JNull => "null"
  | JBool b => if b then "true" else "false"
  | JNum z => string_of_Z z
  | JStr s => s
  | JArr items =>
      join "," (map (fun e => match e with
                              | JNull => ""
                              | _ => String_of e
                              end) items)
  | JObj _ => "[object Object]"
  end.

(** [`${v ?? ""}`]. *)
Definition text_of (v : option json) : string :=
  match v with
  | None => ""
  | Some JNull => ""
  | Some x => String_of x
  end.

(** The [escape] arrow function of [downloadCsv]. *)
Definition escape (v : option json) : string :=
  if includes comma (text_of v) || includes newline (text_of v)
  then String dquote (double_quotes (text_of v) ++ String dquote "")
  else text_of v.



(** [Object.keys(rows[0] || {})]. *)
Definition headers_of (rows : list (list (string * json))) : list string :=
  match rows with
  | [] => []
  | r :: _ => map fst r
  end.

(** The text [downloadCsv] puts in the blob.  [r[h]] is read with [lookup],
    among the keys the record has of its own: this is the value the code
    reads whenever [r] has the key [h], and whenever [h] is not [inherited];
    for an inherited name that [r] lacks the code reads the inherited value
    instead, which the model does not.  Statements about a record that may
    lack a header therefore carry the hypothesis that no header is
    [inherited]. *)
Definition csv_text (rows : list (list (string * json))) : string :=
  let headers := headers_of rows in
  join (String newline "")
       (join "," headers
        :: map (fun r => join "," (map (fun h => escape (lookup h r)) headers))
               rows).

(** [downloadCsv(filename, rows)]: the name and the content of the file
    offered to the browser. *)
Definition downloadCsv (filename : string) (rows : list (list (string * json)))
  : string * string :=
  (filename, csv_text rows).

(* ===================================================================== *)
(** * Call records *)
(* ===================================================================== *)

Record cdr : Type := mkCdr {
  cdr_id : string;
  src : string;
  dst : string;
  disposition : string;
  duration : Z;
  calldate : string
}.

(** The properties of a call record as [Object.keys] lists them. *)
Definition cdr_object (c : cdr) : list (string * json) :=
  [("id", JStr (cdr_id c)); ("src", JStr (src c)); ("dst", JStr (dst c));
   ("disposition", JStr (disposition c)); ("duration", JNum (duration c));
   ("calldate", JStr (calldate c))].

Definition pad2 (z : Z) : string := padStart 2 "0"%char (string_of_Z z).

Definition mock_call (i : Z) : cdr :=
  mkCdr ("c" ++ string_of_Z (i + 1))
        (if i mod 3 =? 0 then "0400123456" else string_of_Z (1001 + i mod 5))
        (string_of_Z (1001 + i mod 7))
        (if i mod 4 =? 0 then "NO ANSWER" else "ANSWERED")
        ((i mod 5) * 47)
        ("2025-08-" ++ pad2 (1 + i mod 28) ++ " " ++ pad2 (8 + i mod 10)
         ++ ":0" ++ string_of_Z (i mod 6) ++ ":1" ++ string_of_Z (i mod 9)).

Definition MOCK_CALLS : list cdr :=
  map (fun i => mock_call (Z.of_nat i)) (seq 0 137).

Record query : Type := mkQuery {
  q_from : string;
  q_to : string;
  q_ext : string;
  q_page : Z;
  q_pageSize : Z
}.

Record page_result : Type := mkPage {
  rows : list cdr;
  total : Z
}.

Section Calls.

(** [new Date(s).valueOf()]: [None] for an invalid date. *)
Variable Date_value : string -> option Z.

(** [new Date(a) >= new Date(b)]; false when either date is invalid. *)
Definition date_ge (a b : string) : bool :=
  match Date_value a, Date_value b with
  | Some x, Some y => y <=? x
  | _, _ => false
  end.

Definition date_le (a b : string) : bool :=
  match Date_value a, Date_value b with
  | Some x, Some y => x <=? y
  | _, _ => false
  end.

(** The predicate given to [MOCK_CALLS.filter]; [!s] holds of the empty
    string. *)
Definition call_matches (q : query) (c : cdr) : bool :=
  (String.eqb (q_ext q) "" || String.eqb (src c) (q_ext q)
   || String.eqb (dst c) (q_ext q))
  && (String.eqb (q_from q) "" || date_ge (calldate c) (q_from q))
  && (String.eqb (q_to q) "" || date_le (calldate c) (q_to q)).

Definition apiFetchCalls (cfg : config) (net : response page_result)
  (q : query) : outcome page_result :=
  if useMock cfg then
    let matching := filter (call_matches q) MOCK_CALLS in
    let total := Z.of_nat (List.length matching) in
    let start := (q_page q - 1) * q_pageSize q in
    Resolved (mkPage (slice matching start (start + q_pageSize q)) total)
  else
    match net with
    | Reject => Rejected
    | Resolve r => Resolved r
    end.

End Calls.

(** [Math.ceil(a / b)] on integers, exact for the magnitudes a row count
    can have; [None] when the quotient is not a finite number. *)
Definition Math_ceil_div (a b : Z) : option Z :=
  if b =? 0 then None else Some (- ((- a) / b)).

(** [Math.max(1, Math.ceil(total / pageSize))] of [CallLogsPanel]. *)
Definition totalPages (total pageSize : Z) : option Z :=
  option_map (Z.max 1) (Math_ceil_div total pageSize).

(** The Next button: [disabled={page >= totalPages}] and
    [setPage(p => Math.min(totalPages, p + 1))]. *)
Definition next_disabled (page pages : Z) : bool := pages <=? page.

Definition next_page (page pages : Z) : Z := Z.min pages (page + 1).

(** The Prev button. *)
Definition prev_disabled (page : Z) : bool := page <=? 1.

Definition prev_page (page : Z) : Z := Z.max 1 (page - 1).

(** A caller name between double quotes, as a caller-id field carries it. *)
Definition quoted_caller : string :=
  String dquote ("Bob" ++ String dquote " <1001>").

(** The Export button of [CallLogsPanel]. *)
Definition export_csv (loaded : list cdr) : string * string :=
  downloadCsv "cdr-export.csv" (map cdr_object loaded).

(* ===================================================================== *)
(** * Durations *)
(* ===================================================================== *)

(** [secondsToHMS(s)] for an integer [s]: [Math.floor] of a quotient is the
    floor division, [%] is the remainder with the sign of the dividend. *)
Definition secondsToHMS (s : Z) : string :=
  let h := s / 3600 in
  let m := Z.rem s 3600 / 60 in
  let sec := Z.rem s 60 in
  join ":" (map pad2 [h; m; sec]).

(** The value of a decimal digit, for reading back what [pad2] wrote. *)
Definition digit_value (c : ascii) : Z := Z.of_nat (nat_of_ascii c) - 48.

(** [pad2 z] is two decimal digits that spell [z]. *)
Definition two_digits (z : Z) : bool :=
  match pad2 z with
  | String a (String b EmptyString) =>
      (0 <=? digit_value a) && (digit_value a <=? 9)
      && (0 <=? digit_value b) && (digit_value b <=? 9)
      && (digit_value a * 10 + digit_value b =? z)
  | _ => false
  end.

(** The rows of one mock fetch, none when the request fails. *)
Definition page_rows (Date_value : string -> option Z) (cfg : config)
  (net : response page_result) (q : query) : list cdr :=
  match apiFetchCalls Date_value cfg net q with
  | Resolved r => rows r
  | Rejected => []
  end.

(** What a user reads who opens the pages 1 to [k] one after the other. *)
Definition pages_read (Date_value : string -> option Z) (cfg : config)
  (net : response page_result) (from to ext : string) (n : Z) (k : nat)
  : list cdr :=
  flat_map (fun i => page_rows Date_value cfg net
                       (mkQuery from to ext (Z.of_nat i) n))
           (seq 1 k).

(* ===================================================================== *)
(** * Status panel *)
(* ===================================================================== *)

(** The test [msg.trunks || msg.queues] of [ws.onmessage]; reading a key of
    [null] throws, which the handler treats like a failed test. *)
Definition recognizable (v : json) : bool :=
  match prop v "trunks" with
  | None => false
  | Some t =>
      truthy t
      || match prop v "queues" with
         | None => false
         | Some q => truthy q
         end
  end.

(** One bordered box of [StatusPanel]: its React key, the heading, the tone
    of the badge, the values shown in the badge and the value of the line
    under it. *)
Record card : Type := mkCard {
  card_key : string;
  heading : option json;
  badge_tone : string;
  badge_values : list (option json);
  detail_value : option json
}.

Section Status.

(** [v > n] of the language, for a value that may be [undefined]. *)
Variable greater : option json -> Z -> bool.

(** The callback given to [status.trunks.map]; [None] when it throws. *)
Definition trunk_card (idx : nat) (t : json) : option card :=
  match prop t "name", prop t "latency_ms", prop t "state" with
  | Some nm, Some latency, Some state =>
      Some (mkCard ("t" ++ string_of_Z (Z.of_nat idx)) nm
                   (if greater latency 150 then "warn" else "ok")
                   [state] latency)
  | _, _, _ => None
  end.

(** The callback given to [status.queues.map]. *)
Definition queue_card (idx : nat) (q : json) : option card :=
  match prop q "name", prop q "waiting", prop q "logged_in", prop q "agents" with
  | Some nm, Some waiting, Some logged_in, Some agents =>
      Some (mkCard ("q" ++ string_of_Z (Z.of_nat idx)) nm
                   (if greater waiting 0 then "warn" else "ok")
                   [logged_in; agents] waiting)
  | _, _, _, _ => None
  end.

(** [v.map((x, idx) => f(idx, x))]: a [TypeError] unless [v] is an array. *)
Fixpoint map_indexed (f : nat -> json -> option card) (idx : nat)
  (items : list json) : option (list card) :=
  match items with
  | [] => Some []
  | x :: rest =>
      match f idx x with
      | None => None
      | Some c =>
          match map_indexed f (S idx) rest with
          | None => None
          | Some cs => Some (c :: cs)
          end
      end
  end.

Definition array_map (f : nat -> json -> option card) (v : option (option json))
  : option (list card) :=
  match v with
  | Some (Some (JArr items)) => map_indexed f 0 items
  | _ => None
  end.

(** The boxes [StatusPanel] returns for the snapshot [status], trunks
    first; [None] when the component throws. *)
Definition StatusPanel (status : json) : option (list card) :=
  match array_map trunk_card (prop status "trunks") with
  | None => None
  | Some ts =>
      match array_map queue_card (prop status "queues") with
      | None => None
      | Some qs => Some (ts ++ qs)%list
      end
  end.

End Status.


(** How often the character [c] occurs in [s]. *)
Fixpoint occurrences (c : ascii) (s : string) : nat :=
  match s with
  | EmptyString => 0
  | String a rest => (if Ascii.eqb a c then 1 else 0) + occurrences c rest
  end.

(* ===================================================================== *)
(** * Search in the extensions panel *)
(* ===================================================================== *)

(** Texts are taken as ASCII here: [trim] removes tabs, line feeds,
    vertical tabs, form feeds, carriage returns and spaces, and
    [toLowerCase] moves the letters A to Z. *)
Definition is_space (c : ascii) : bool :=
  let n := nat_of_ascii c in
  ((9 <=? n) && (n <=? 13) || (n =? 32))%nat.

Definition lower (c : ascii) : ascii :=
  let n := nat_of_ascii c in
  if ((65 <=? n) && (n <=? 90))%nat then ascii_of_nat (n + 32) else c.

Fixpoint toLowerCase (s : string) : string :=
  match s with
  | EmptyString => EmptyString
  | String a rest => String (lower a) (toLowerCase rest)
  end.

Fixpoint trimStart (s : string) : string :=
  match s with
  | EmptyString => EmptyString
  | String a rest => if is_space a then trimStart rest else s
  end.

Definition reverse (s : string) : string :=
  string_of_list_ascii (rev (list_ascii_of_string s)).

Definition trim (s : string) : string :=
  reverse (trimStart (reverse (trimStart s))).

Fixpoint starts_with (t s : string) : bool :=
  match t, s with
  | EmptyString, _ => true
  | String a t', String b s' => Ascii.eqb a b && starts_with t' s'
  | String _ _, EmptyString => false
  end.

(** [s.includes(t)] for a text [t]. *)
Fixpoint includes_text (t s : string) : bool :=
  starts_with t s
  || match s with
     | EmptyString => false
     | String _ rest => includes_text t rest
     end.

(** An element of an array inside [join]: [undefined] gives no text. *)
Definition joined_num (p : option num) : string :=
  match p with
  | Some n => String_of_num n
  | None => ""
  end.

Definition joined_str (p : option string) : string :=
  match p with
  | Some s => s
  | None => ""
  end.

(** [[r.id, r.name, r.callerid, r.tech].join(" ").toLowerCase()]. *)
Definition search_text (f : fields) : string :=
  toLowerCase (join " " [joined_num (id f); joined_str (name f);
                         joined_str (callerid f); joined_str (tech f)]).

(** The [filtered] list of [ExtensionsPanel] for the search box [q];
    [None] when the callback throws on a cell that is [undefined]. *)
Definition filtered (q : string) (d : list value) : option (list value) :=
  let term := toLowerCase (trim q) in
  if String.eqb term "" then Some d
  else filter_throw (fun r =>
         match r with
         | undefined => None
         | Obj o => Some (includes_text term (search_text (props o)))
         end) d.

(** The check of [creates_on_records] made while running the sequence. *)
Fixpoint creates_checked (cs : list click) (st : appstate) : bool :=
  match cs with
  | [] => true
  | c :: rest =>
      match c with
      | New _ _ => match MOCK_EXTENSIONS st with [] => false | _ => true end
      | _ => true
      end
      && match do_click c st with
         | Some (_, st') => creates_checked rest st'
         | None => true
         end
  end.

(** ** What the editor's inputs do to the form *)

(** Two edits are typed into the same input. *)
Definition same_field (e1 e2 : edit) : bool :=
  match e1, e2 with
  | SetTech _, SetTech _ => true
  | SetName _, SetName _ => true
  | SetCallerid _, SetCallerid _ => true
  | SetVoicemail _, SetVoicemail _ => true
  | SetVmEmail _, SetVmEmail _ => true
  | _, _ => false
  end.

(** The form [f] has, under the key of the edit [e], the value typed with
    [e]. *)
Definition holds (f : fields) (e : edit) : Prop :=
  match e with
  | SetTech v => tech f = Some v
  | SetName v => name f = Some v
  | SetCallerid v => callerid f = Some v
  | SetVoicemail v => voicemail f = Some v
  | SetVmEmail v => vm_email f = Some v
  end.


(* ===================================================================== *)
(** * Properties *)
(* ===================================================================== *)

(** ** Lists and slices *)

Lemma slice_from_zero {A : Type} (l : list A) (n : nat) :
  slice l 0 (Z.of_nat n) = firstn n l.
Proof.
  unfold slice. cbn [Z.ltb Z.compare].
  destruct (Z.of_nat n <? 0) eqn:E; [apply Z.ltb_lt in E; lia|].
  rewrite (Z.min_l 0) by lia. cbn [Z.to_nat skipn]. rewrite Z.sub_0_r.
  destruct (Z.min_spec (Z.of_nat n) (Z.of_nat (List.length l))) as [[H ->]|[H ->]].
  - now rewrite Nat2Z.id.
  - rewrite Nat2Z.id. rewrite firstn_all. symmetry. apply firstn_all2. lia.
Qed.

Lemma slice_length_le {A : Type} (l : list A) (start n : Z) :
  0 <= start -> 0 <= n ->
  Z.of_nat (List.length (slice l start (start + n))) <= n.
Proof.
  intros Hs Hn. unfold slice.
  destruct (start <? 0) eqn:E1; [apply Z.ltb_lt in E1; lia|].
  destruct (start + n <? 0) eqn:E2; [apply Z.ltb_lt in E2; lia|].
  rewrite length_firstn. lia.
Qed.

Lemma audit_updater_cons who now act det a :
  audit_updater who now act det a = mkEntry act det now who :: firstn 199 a.
Proof.
  unfold audit_updater. change 200 with (Z.of_nat 200).
  rewrite slice_from_zero. reflexivity.
Qed.


(** ** The audit log *)

Lemma firstn_app_cons_cut {A : Type} (n : nat) (l : list A) (x : A) (a : list A) :
  firstn (S n) (l ++ x :: firstn n a) = firstn (S n) (l ++ x :: a).
Proof.
  rewrite !firstn_app. f_equal.
  destruct (S n - List.length l)%nat as [|k] eqn:E; [reflexivity|].
  cbn [firstn]. f_equal. rewrite firstn_firstn. f_equal. lia.
Qed.

Lemma push_all_from (ps : list push) :
  forall a, (List.length a <= 200)%nat ->
  push_all ps a = firstn 200 (rev (map stamped ps) ++ a).
Proof.
  induction ps as [|p ps IH]; intros a Ha.
  - unfold push_all. cbn [fold_left map rev app]. symmetry. now apply firstn_all2.
  - change (push_all (p :: ps) a)
      with (push_all ps (audit_updater (p_who p) (p_now p) (p_action p)
                                       (p_detail p) a)).
    rewrite audit_updater_cons. fold (stamped p).
    rewrite IH.
    + cbn [map rev]. rewrite <- app_assoc. cbn [app].
      apply (firstn_app_cons_cut 199).
    + cbn [List.length]. rewrite length_firstn. lia.
Qed.

(** ** Updaters of the extension list *)

Lemma replace_by_id_objects (row : obj) (x : value) (d : list value) :
  all_objects d = true ->
  replace_by_id row x d
  = Some (map (fun r => if has_id (id (props row)) r then x else r) d).
Proof.
  unfold replace_by_id. induction d as [|r d IH]; intros H; [reflexivity|].
  cbn [all_objects forallb] in H. apply andb_prop in H as [Hr Hd].
  destruct r as [|o]; [discriminate|].
  cbn [map_throw get_id map has_id]. fold (all_objects d) in Hd.
  now rewrite (IH Hd).
Qed.

Lemma remove_by_id_objects (i : option num) (d : list value) :
  all_objects d = true ->
  remove_by_id i d = Some (filter (fun r => negb (has_id i r)) d).
Proof.
  unfold remove_by_id. induction d as [|r d IH]; intros H; [reflexivity|].
  cbn [all_objects forallb] in H. apply andb_prop in H as [Hr Hd].
  destruct r as [|o]; [discriminate|].
  cbn [filter_throw get_id filter has_id]. fold (all_objects d) in Hd.
  now rewrite (IH Hd).
Qed.

Lemma all_objects_replace (i : option num) (o : obj) (d : list value) :
  all_objects d = true ->
  all_objects (map (fun r => if has_id i r then Obj o else r) d) = true.
Proof.
  induction d as [|r d IH]; intros H; [reflexivity|].
  cbn [all_objects forallb map] in *. apply andb_prop in H as [Hr Hd].
  apply andb_true_intro. split; [|now apply IH].
  now destruct (has_id i r).
Qed.

(** Two rounds of replacement by the same identifier: the rows the first
    round wrote still carry the identifier, so the second round rewrites
    exactly the same positions. *)
Lemma replace_twice (i : option num) (x : obj) (y : value) (d : list value) :
  id (props x) = i ->
  map (fun r => if has_id i r then y else r)
      (map (fun r => if has_id i r then Obj x else r) d)
  = map (fun r => if has_id i r then y else r) d.
Proof.
  intros Hx. rewrite map_map. apply map_ext. intros r.
  destruct (has_id i r) eqn:E; [|now rewrite E].
  destruct r as [|o]; [discriminate|].
  cbn [has_id] in *. rewrite Hx.
  assert (R : strict_eq i i = true).
  { destruct i as [[| |z]|], (id (props o)) as [[| |w]|]; cbn in *;
      try discriminate; try reflexivity. apply Z.eqb_refl. }
  now rewrite R.
Qed.

Lemma replace_same (row : obj) (d : list value) :
  (forall r, In r d -> has_id (id (props row)) r = true -> r = Obj row) ->
  map (fun r => if has_id (id (props row)) r then Obj row else r) d = d.
Proof.
  intros H. rewrite <- (map_id d) at 2. apply map_ext_in. intros r Hr.
  destruct (has_id (id (props row)) r) eqn:E; [|reflexivity].
  symmetry. now apply H.
Qed.

Lemma filter_placeholder (n : nat) (f : fields) (d : list value) :
  forallb (fun r => match r with
                    | Obj x => Nat.ltb (oid x) n
                    | undefined => true
                    end) d = true ->
  filter (fun r => negb (same_object r (mkObj n f))) d = d.
Proof.
  induction d as [|r d IH]; intros H; [reflexivity|].
  cbn [forallb] in H. apply andb_prop in H as [Hr Hd].
  cbn [filter]. rewrite (IH Hd).
  destruct r as [|x]; cbn [same_object negb oid]; [reflexivity|].
  apply Nat.ltb_lt in Hr.
  destruct (Nat.eqb_spec (oid x) n); [lia|reflexivity].
Qed.

Lemma apply_edit_id (f : fields) (e : edit) : id (apply_edit f e) = id f.
Proof. now destruct e. Qed.

Lemma ExtensionModal_id (initial : option obj) (es : list edit) :
  id (ExtensionModal initial es) = id (initial_form initial).
Proof.
  unfold ExtensionModal. generalize (initial_form initial).
  induction es as [|e es IH]; intros f; [reflexivity|].
  cbn [fold_left]. now rewrite IH, apply_edit_id.
Qed.

Lemma over_same {A : Type} (a : option A) : over a a = a.
Proof. now destruct a. Qed.

Lemma audit_two (who : string) (t1 t2 : Z) (a1 d1 a2 d2 : string)
  (a : list audit_entry) :
  audit_updater who t2 a2 d2 (audit_updater who t1 a1 d1 a)
  = firstn 200 (mkEntry a2 d2 t2 who :: mkEntry a1 d1 t1 who :: a).
Proof.
  rewrite !audit_updater_cons.
  change (mkEntry a2 d2 t2 who :: firstn 199 (mkEntry a1 d1 t1 who :: firstn 199 a))
    with (firstn 200 (mkEntry a2 d2 t2 who :: mkEntry a1 d1 t1 who :: firstn 199 a)).
  apply (firstn_app_cons_cut 199 [mkEntry a2 d2 t2 who]).
Qed.

(** ** Failed requests are rolled back *)

(** Only a request sent over the network can be rejected: in mock mode the
    three adapters always resolve. *)
Lemma mock_adapters_resolve (cfg : config) (st : appstate) :
  useMock cfg = true ->
  (forall net payload, exists v st',
      apiCreateExtension cfg net payload st = Some (Resolved v, st'))
  /\ (forall net ident payload, exists v st',
         apiUpdateExtension cfg net ident payload st = Some (Resolved v, st'))
  /\ (forall net ident, exists v st',
         apiDeleteExtension cfg net ident st = Some (Resolved v, st')).
Proof.
  intros Hcfg.
  unfold apiCreateExtension, apiUpdateExtension, apiDeleteExtension.
  rewrite Hcfg. unfold bind, ret, get, new_object, set_store.
  split; [|split]; intros.
  - eexists. eexists. reflexivity.
  - destruct (0 <=? findIndex _ (MOCK_EXTENSIONS st));
      eexists; eexists; reflexivity.
  - destruct (0 <=? findIndex _ (MOCK_EXTENSIONS st));
      eexists; eexists; reflexivity.
Qed.

Arguments audit_updater : simpl never.

Ltac run_handler :=
  unfold createExt, createExt_start, createExt_settle,
         saveEdit, saveEdit_start, saveEdit_settle,
         deleteExt, deleteExt_start, deleteExt_settle,
         apiCreateExtension, apiUpdateExtension, apiDeleteExtension,
         parsed_record, bind, ret, get, sleep, new_object, setData,
         pushAudit, set_store;
  cbn [negb fst snd data audit role clock fresh MOCK_EXTENSIONS].

(** ** The audit log *)

(** The first push of a create is made under the role of the click. *)
Lemma createExt_start_log cfg net rnd form st who o r st1 :
  createExt_start cfg net rnd form st = Some (who, o, r, st1) ->
  who = role st
  /\ role st1 = role st
  /\ audit st1
     = mkEntry "create_extension"
               (tmpl_str (name form) ++ " (" ++ tmpl_str (callerid form) ++ ")")
               (clock st) (role st)
       :: firstn 199 (audit st).
Proof.
  run_handler. rewrite audit_updater_cons.
  destruct (useMock cfg); [|destruct net as [|[f|]]]; run_handler;
    intros H; injection H as <- _ _ <-; repeat split.
Qed.

Lemma saveEdit_start_log cfg net row form st who r st1 :
  saveEdit_start cfg net row form st = Some (who, r, st1) ->
  who = role st
  /\ role st1 = role st
  /\ audit st1
     = mkEntry "update_extension" (tmpl_num (id (props row)))
               (clock st) (role st)
       :: firstn 199 (audit st).
Proof.
  run_handler.
  destruct (replace_by_id row _ (data st)) as [d|]; [|discriminate].
  run_handler. rewrite audit_updater_cons.
  destruct (useMock cfg); [|destruct net as [|[f|]]]; run_handler;
    [destruct (0 <=? findIndex _ (MOCK_EXTENSIONS st)); run_handler| | |];
    intros H; injection H as <- _ <-; repeat split.
Qed.

Lemma deleteExt_start_log cfg net yes ident st who prev r st1 :
  deleteExt_start cfg net yes ident st = Some (Some (who, prev, r), st1) ->
  yes = true
  /\ who = role st
  /\ role st1 = role st
  /\ audit st1
     = mkEntry "delete_extension" (tmpl_num ident) (clock st) (role st)
       :: firstn 199 (audit st).
Proof.
  run_handler. destruct yes; cbn [negb]; [|discriminate].
  destruct (remove_by_id ident (data st)) as [d|]; [|discriminate].
  run_handler. rewrite audit_updater_cons.
  destruct (useMock cfg); [|destruct net as [|a]]; run_handler;
    [destruct (0 <=? findIndex _ (MOCK_EXTENSIONS st)); run_handler| |];
    intros H; injection H as <- _ _ <-; repeat split.
Qed.

(** C9, as stated, fails on the role: an admin presses Create, the role
    selector is moved to helpdesk while the request is in flight, and the
    request is rejected 50 ms after the click.  The push that follows is
    made while the active role is helpdesk, and the entry it puts at the
    head of the log is stamped admin. *)
Lemma rollback_entry_carries_an_earlier_role :
  exists who optimistic r st1 st2 st3,
    createExt_start remote_cfg Reject 123456 default_form loaded
    = Some (who, optimistic, r, st1)
    /\ (sleep 50 ;;; setRole "helpdesk") st1 = Some (tt, st2)
    /\ role st2 = "helpdesk"
    /\ createExt_settle who default_form optimistic r st2 = Some (tt, st3)
    /\ role st3 = "helpdesk"
    /\ audit st3
       = [mkEntry "rollback_create_extension" "" 50 "admin";
          mkEntry "create_extension" " ()" 0 "admin"]
    /\ create_across_role_change loaded = Some (tt, st3).
Proof.
  eexists _, _, _, _, _, _.
  split; [vm_compute; reflexivity|].
  split; [vm_compute; reflexivity|].
  split; [reflexivity|].
  split; [vm_compute; reflexivity|].
  split; [reflexivity|].
  split; [reflexivity|].
  vm_compute. reflexivity.
Qed.

(** C9, amended.  Whatever calls of [pushAudit] are made, the log holds at
    most 200 entries and is the list of the stamped entries, newest first,
    cut after the 200th; one call puts its entry at the head, stamped with
    the time of the call and with the role its caller was started under,
    keeps the first 199 older entries as they were, in their order, and
    leaves the active role alone; the panel lists the log in that order.
    The role of an entry is the role that was active when the button was
    pressed: the entry a create, an update or a confirmed delete pushes
    before its request carries the active role, and the rollback entry
    pushed after a rejected request carries that same captured role and the
    time of the rejection, whatever the active role has become; a request
    that is answered pushes nothing more. *)
Theorem audit_log_capped_newest_first (ps : list push) :
  (List.length (push_all ps []) <= 200)%nat
  /\ push_all ps [] = firstn 200 (rev (map stamped ps))
  /\ (forall p a, push_all [p] a = stamped p :: firstn 199 a)
  /\ AuditPanel (push_all ps [])
     = firstn 200 (rev (map (fun p => (p_now p, p_action p, p_detail p, p_who p)) ps))
  /\ (forall who act det st,
        pushAudit who act det st
        = Some (tt, mkApp (MOCK_EXTENSIONS st) (data st)
                          (mkEntry act det (clock st) who :: firstn 199 (audit st))
                          (role st) (clock st) (fresh st)))
  /\ (forall cfg net rnd form st who o r st1,
        createExt_start cfg net rnd form st = Some (who, o, r, st1) ->
        who = role st
        /\ audit st1
           = mkEntry "create_extension"
                     (tmpl_str (name form) ++ " ("
                      ++ tmpl_str (callerid form) ++ ")")
                     (clock st) (role st)
             :: firstn 199 (audit st))
  /\ (forall cfg net row form st who r st1,
        saveEdit_start cfg net row form st = Some (who, r, st1) ->
        who = role st
        /\ audit st1
           = mkEntry "update_extension" (tmpl_num (id (props row)))
                     (clock st) (role st)
             :: firstn 199 (audit st))
  /\ (forall cfg net yes ident st who prev r st1,
        deleteExt_start cfg net yes ident st = Some (Some (who, prev, r), st1) ->
        who = role st
        /\ audit st1
           = mkEntry "delete_extension" (tmpl_num ident) (clock st) (role st)
             :: firstn 199 (audit st))
  /\ (forall cfg net ident st,
        deleteExt_start cfg net false ident st = Some (None, st))
  /\ (forall who form o later,
        exists st',
          createExt_settle who form o Rejected later = Some (tt, st')
          /\ role st' = role later
          /\ audit st'
             = mkEntry "rollback_create_extension" (tmpl_str (name form))
                       (clock later) who
               :: firstn 199 (audit later))
  /\ (forall who row later st',
        saveEdit_settle who row Rejected later = Some (tt, st') ->
        role st' = role later
        /\ audit st'
           = mkEntry "rollback_update_extension" (tmpl_num (id (props row)))
                     (clock later) who
             :: firstn 199 (audit later))
  /\ (forall who prev ident later,
        exists st',
          deleteExt_settle who prev ident Rejected later = Some (tt, st')
          /\ role st' = role later
          /\ audit st'
             = mkEntry "rollback_delete_extension" (tmpl_num ident)
                       (clock later) who
               :: firstn 199 (audit later))
  /\ (forall who form o saved later st',
        createExt_settle who form o (Resolved saved) later = Some (tt, st') ->
        audit st' = audit later)
  /\ (forall who row saved later st',
        saveEdit_settle who row (Resolved saved) later = Some (tt, st') ->
        audit st' = audit later)
  /\ (forall who prev ident a later,
        deleteExt_settle who prev ident (Resolved a) later = Some (tt, later)).
Proof.
  assert (E : push_all ps [] = firstn 200 (rev (map stamped ps))).
  { rewrite push_all_from by (cbn [List.length]; lia). now rewrite app_nil_r. }
  split; [rewrite E, length_firstn; lia|].
  split; [exact E|].
  split; [intros p a; unfold push_all; cbn [fold_left];
          apply audit_updater_cons|].
  split; [rewrite E; unfold AuditPanel;
          rewrite <- firstn_map, map_rev, map_map; reflexivity|].
  split; [intros who act det st; unfold pushAudit;
          now rewrite audit_updater_cons|].
  split; [intros cfg net rnd form st who o r st1 H;
          destruct (createExt_start_log _ _ _ _ _ _ _ _ _ H) as (A & _ & B);
          now split|].
  split; [intros cfg net row form st who r st1 H;
          destruct (saveEdit_start_log _ _ _ _ _ _ _ _ H) as (A & _ & B);
          now split|].
  split; [intros cfg net yes ident st who prev r st1 H;
          destruct (deleteExt_start_log _ _ _ _ _ _ _ _ _ H) as (_ & A & _ & B);
          now split|].
  split; [intros cfg net ident st; run_handler; now destruct st|].
  split; [intros who form o later; run_handler; eexists;
          split; [reflexivity|]; cbn [role audit];
          split; [reflexivity|apply audit_updater_cons]|].
  split; [intros who row later st'; run_handler;
          destruct (replace_by_id row _ (data later)) as [d|]; [|discriminate];
          run_handler; intros H; injection H as <-; cbn [role audit];
          split; [reflexivity|apply audit_updater_cons]|].
  split; [intros who prev ident later; run_handler; eexists;
          split; [reflexivity|]; cbn [role audit];
          split; [reflexivity|apply audit_updater_cons]|].
  split; [intros who form o saved later st'; run_handler;
          intros H; injection H as <-; reflexivity|].
  split; [intros who row saved later st'; run_handler;
          destruct (replace_by_id row saved (data later)) as [d|];
          [|discriminate]; intros H; injection H as <-; reflexivity|].
  intros who prev ident a later. run_handler. reflexivity.
Qed.

Lemma audit_log_capped_newest_first_witness :
  exists who o r st1,
    createExt_start remote_cfg Reject 123456 default_form loaded
    = Some (who, o, r, st1)
    /\ who = "admin"
    /\ audit st1 = [mkEntry "create_extension" " ()" 0 "admin"].
Proof.
  pose proof (audit_log_capped_newest_first []) as (_ & _ & _ & _ & _ & C & _).
  eexists _, _, _, _. split; [vm_compute; reflexivity|].
  exact (C remote_cfg Reject 123456 default_form loaded _ _ _ _ eq_refl).
Defined.

(** C3.  When the request of a create is rejected, the placeholder is taken
    out of the list again, which is then the list as it was before the
    create, and the log has gained the create_extension entry followed by
    one rollback_create_extension entry, and nothing else. *)
Theorem failed_create_rolls_back
  (cfg : config) (dt rnd : Z) (form : fields) (st : appstate) :
  useMock cfg = false ->
  heap_ok st = true ->
  exists st',
    createExt cfg Reject dt rnd form st = Some (tt, st')
    /\ data st' = data st
    /\ audit st'
       = firstn 200
           (mkEntry "rollback_create_extension" (tmpl_str (name form))
                    (clock st + dt) (role st)
            :: mkEntry "create_extension"
                       (tmpl_str (name form) ++ " ("
                        ++ tmpl_str (callerid form) ++ ")")
                       (clock st) (role st)
            :: audit st)
    /\ MOCK_EXTENSIONS st' = MOCK_EXTENSIONS st.
Proof.
  intros Hcfg Hheap. run_handler. rewrite Hcfg. run_handler.
  eexists. split; [reflexivity|].
  cbn [data audit MOCK_EXTENSIONS filter same_object oid negb].
  rewrite Nat.eqb_refl. cbn [negb].
  repeat split.
  - now apply filter_placeholder.
  - apply audit_two.
Qed.

Lemma failed_create_rolls_back_witness :
  useMock remote_cfg = false
  /\ heap_ok loaded = true
  /\ exists st',
       createExt remote_cfg Reject 120 123456
                 (ExtensionModal None [SetName "Lobby"; SetCallerid "Lobby <1050>"])
                 loaded = Some (tt, st')
       /\ data st' = data loaded
       /\ audit st'
          = firstn 200
              [mkEntry "rollback_create_extension" "Lobby" 120 "admin";
               mkEntry "create_extension" "Lobby (Lobby <1050>)" 0 "admin"]
       /\ MOCK_EXTENSIONS st' = MOCK_EXTENSIONS loaded.
Proof.
  split; [reflexivity|]. split; [reflexivity|].
  apply (failed_create_rolls_back remote_cfg 120 123456
           (ExtensionModal None [SetName "Lobby"; SetCallerid "Lobby <1050>"])
           loaded); reflexivity.
Defined.

(** C4.  When the request of an update of the row [row] is rejected, every
    displayed row carrying the identifier of [row] is [row] itself again,
    the object captured before the merge, with the fields it had; the other
    rows are untouched; and the log has gained the update_extension entry
    followed by one rollback_update_extension entry.  When [row] was the
    only displayed row with its identifier the whole list is as before. *)
Theorem failed_update_restores_row
  (cfg : config) (dt : Z) (row : obj) (es : list edit) (st : appstate) :
  useMock cfg = false ->
  all_objects (data st) = true ->
  exists st',
    saveEdit cfg Reject dt row (ExtensionModal (Some row) es) st = Some (tt, st')
    /\ data st'
       = map (fun r => if has_id (id (props row)) r then Obj row else r) (data st)
    /\ ((forall r, In r (data st) -> has_id (id (props row)) r = true -> r = Obj row)
        -> data st' = data st)
    /\ audit st'
       = firstn 200
           (mkEntry "rollback_update_extension" (tmpl_num (id (props row)))
                    (clock st + dt) (role st)
            :: mkEntry "update_extension" (tmpl_num (id (props row)))
                       (clock st) (role st)
            :: audit st)
    /\ MOCK_EXTENSIONS st' = MOCK_EXTENSIONS st.
Proof.
  intros Hcfg Hobj. run_handler. rewrite Hcfg. run_handler.
  rewrite (replace_by_id_objects row _ (data st) Hobj).
  run_handler.
  rewrite replace_by_id_objects by now apply all_objects_replace.
  assert (E : map (fun r => if has_id (id (props row)) r then Obj row else r)
                (map (fun r => if has_id (id (props row)) r
                               then Obj (mkObj (fresh st)
                                          (spread (props row)
                                             (ExtensionModal (Some row) es)))
                               else r) (data st))
              = map (fun r => if has_id (id (props row)) r then Obj row else r)
                    (data st)).
  { apply replace_twice. cbn [props spread id].
    rewrite ExtensionModal_id. apply over_same. }
  rewrite E. eexists. split; [reflexivity|].
  cbn [data audit MOCK_EXTENSIONS]. repeat split.
  - apply replace_same.
  - apply audit_two.
Qed.

Lemma failed_update_restores_row_witness :
  useMock remote_cfg = false
  /\ all_objects (data loaded) = true
  /\ exists st',
       saveEdit remote_cfg Reject 80
                (mkObj 4 (mock_row 1002 "Sales" "Sales <1002>" true "sales@example.com"))
                (ExtensionModal
                   (Some (mkObj 4 (mock_row 1002 "Sales" "Sales <1002>" true
                                            "sales@example.com")))
                   [SetName "Sales EU"; SetVoicemail false])
                loaded = Some (tt, st')
       /\ data st' = data loaded.
Proof.
  split; [reflexivity|]. split; [reflexivity|].
  destruct (failed_update_restores_row remote_cfg 80
              (mkObj 4 (mock_row 1002 "Sales" "Sales <1002>" true "sales@example.com"))
              [SetName "Sales EU"; SetVoicemail false] loaded
              eq_refl eq_refl) as [st' [H1 [H2 _]]].
  exists st'. split; [exact H1|]. rewrite H2. reflexivity.
Defined.

(** C5.  When the request of a delete is rejected, the list becomes the
    whole list captured when Delete was pressed, whatever it has become in
    the meantime, and one rollback_delete_extension entry is logged after
    the delete_extension entry; with nothing happening in between, the list
    is the one from before the delete. *)
Theorem failed_delete_restores_list
  (cfg : config) (dt : Z) (ident : option num) (st : appstate) :
  useMock cfg = false ->
  all_objects (data st) = true ->
  (exists st',
     deleteExt cfg Reject dt true ident st = Some (tt, st')
     /\ data st' = data st
     /\ audit st'
        = firstn 200
            (mkEntry "rollback_delete_extension" (tmpl_num ident)
                     (clock st + dt) (role st)
             :: mkEntry "delete_extension" (tmpl_num ident)
                        (clock st) (role st)
             :: audit st)
     /\ MOCK_EXTENSIONS st' = MOCK_EXTENSIONS st)
  /\ (forall later : appstate,
        exists st'',
          deleteExt_settle (role st) (data st) ident Rejected later
          = Some (tt, st'')
          /\ data st'' = data st
          /\ audit st''
             = mkEntry "rollback_delete_extension" (tmpl_num ident)
                       (clock later) (role st)
               :: firstn 199 (audit later)).
Proof.
  intros Hcfg Hobj. split.
  - run_handler. rewrite Hcfg. run_handler.
    rewrite (remove_by_id_objects ident (data st) Hobj).
    run_handler. eexists. split; [reflexivity|].
    cbn [data audit MOCK_EXTENSIONS]. repeat split. apply audit_two.
  - intros later. run_handler. eexists. split; [reflexivity|].
    cbn [data audit]. split; [reflexivity|]. apply audit_updater_cons.
Qed.

Lemma failed_delete_restores_list_witness :
  useMock remote_cfg = false
  /\ all_objects (data loaded) = true
  /\ exists st',
       deleteExt remote_cfg Reject 45 true (Some (Fin 1003)) loaded
       = Some (tt, st')
       /\ data st' = data loaded.
Proof.
  split; [reflexivity|]. split; [reflexivity|].
  destruct (failed_delete_restores_list remote_cfg 45 (Some (Fin 1003)) loaded
              eq_refl eq_refl) as [[st' [H1 [H2 _]]] _].
  exists st'. split; [exact H1|exact H2].
Defined.

(** ** The mock update of an identifier the store does not hold *)

Lemma findIndex_range {A : Type} (p : A -> bool) (l : list A) :
  -1 <= findIndex p l < Z.of_nat (List.length l).
Proof.
  induction l as [|x l IH]; [cbn; lia|].
  cbn [findIndex List.length]. destruct (p x); [lia|].
  destruct (findIndex p l <? 0) eqn:E; [lia|].
  apply Z.ltb_ge in E. lia.
Qed.

(** [findIndex] answers [-1] exactly when no element satisfies the test. *)
Lemma findIndex_absent {A : Type} (p : A -> bool) (l : list A) :
  findIndex p l = -1 <-> (forall x, In x l -> p x = false).
Proof.
  induction l as [|x l IH]; [cbn; tauto|].
  cbn [findIndex]. destruct (p x) eqn:Px.
  - split; [discriminate|]. intros H. specialize (H x (or_introl eq_refl)).
    congruence.
  - pose proof (findIndex_range p l) as R.
    destruct (findIndex p l <? 0) eqn:E.
    + apply Z.ltb_lt in E. split; [|reflexivity].
      intros _ y [<-|Hy]; [exact Px|]. apply IH; [lia|exact Hy].
    + apply Z.ltb_ge in E. split; [lia|].
      intros H. assert (findIndex p l = -1) by (apply IH; intros y Hy; apply H; now right).
      lia.
Qed.

(** C10.  For an identifier no record of the mock store carries, the mock
    update resolves with [undefined] and leaves the store as it is; the
    success path of [saveEdit] then writes [undefined] over every displayed
    row carrying that identifier, and no rollback entry is logged. *)
Theorem mock_update_of_unknown_id
  (cfg : config) (net : response (option fields)) (ident : option num)
  (st : appstate) :
  useMock cfg = true ->
  findIndex (fun e => strict_eq (id (props e)) ident) (MOCK_EXTENSIONS st) = -1 ->
  (forall payload,
     apiUpdateExtension cfg net ident payload st = Some (Resolved undefined, st))
  /\ (forall who row later,
        id (props row) = ident ->
        all_objects (data later) = true ->
        exists st'',
          saveEdit_settle who row (Resolved undefined) later = Some (tt, st'')
          /\ data st''
             = map (fun r => if has_id ident r then undefined else r) (data later)
          /\ audit st'' = audit later)
  /\ (forall dt row es,
        id (props row) = ident ->
        all_objects (data st) = true ->
        exists st',
          saveEdit cfg net dt row (ExtensionModal (Some row) es) st = Some (tt, st')
          /\ MOCK_EXTENSIONS st' = MOCK_EXTENSIONS st
          /\ data st'
             = map (fun r => if has_id ident r then undefined else r) (data st)
          /\ audit st'
             = mkEntry "update_extension" (tmpl_num ident) (clock st) (role st)
               :: firstn 199 (audit st)).
Proof.
  intros Hcfg Hi.
  repeat split.
  - intros payload. run_handler. rewrite Hcfg, Hi. run_handler.
    cbn [Z.leb Z.compare at_index Z.ltb]. now destruct st.
  - intros who row later Hrow Hobj. run_handler.
    rewrite (replace_by_id_objects row _ (data later) Hobj), Hrow.
    eexists. split; [reflexivity|]. cbn [data audit]. now split.
  - intros dt row es Hrow Hobj. run_handler. rewrite Hcfg. run_handler.
    rewrite (replace_by_id_objects row _ (data st) Hobj).
    run_handler. rewrite Hrow, Hi.
    cbn [Z.leb Z.compare at_index Z.ltb]. run_handler.
    rewrite <- Hrow.
    rewrite replace_by_id_objects by now apply all_objects_replace.
    rewrite replace_twice
      by (cbn [props spread id]; rewrite ExtensionModal_id; apply over_same).
    eexists. split; [reflexivity|].
    cbn [data audit MOCK_EXTENSIONS]. repeat split.
    apply audit_updater_cons.
Qed.

Lemma mock_update_of_unknown_id_witness :
  useMock mock_cfg = true
  /\ findIndex (fun e => strict_eq (id (props e)) (Some (Fin 1002)))
               (MOCK_EXTENSIONS orphaned) = -1
  /\ apiUpdateExtension mock_cfg Reject (Some (Fin 1002)) default_form orphaned
     = Some (Resolved undefined, orphaned)
  /\ exists st',
       saveEdit mock_cfg Reject 0
                (mkObj 4 (mock_row 1002 "Sales" "Sales <1002>" true "sales@example.com"))
                (ExtensionModal
                   (Some (mkObj 4 (mock_row 1002 "Sales" "Sales <1002>" true
                                            "sales@example.com")))
                   [SetName "Sales EU"])
                orphaned = Some (tt, st')
       /\ shown (data st')
          = [Some (mock_row 1001 "Reception" "Reception <1001>" true
                            "reception@example.com");
             None;
             Some (mock_row 1003 "Support" "Support <1003>" false "")].
Proof.
  split; [reflexivity|]. split; [reflexivity|].
  destruct (mock_update_of_unknown_id mock_cfg Reject (Some (Fin 1002)) orphaned
              eq_refl eq_refl) as [H1 [_ H3]].
  split; [apply H1|].
  destruct (H3 0 (mkObj 4 (mock_row 1002 "Sales" "Sales <1002>" true
                                    "sales@example.com"))
               [SetName "Sales EU"] eq_refl eq_refl) as [st' [E [_ [D _]]]].
  exists st'. split; [exact E|]. rewrite D. reflexivity.
Defined.

(** ** Paging of the call records *)

Lemma slice_window {A : Type} (l : list A) (start n : Z) :
  0 <= start -> 0 <= n ->
  slice l start (start + n)
  = firstn (Z.to_nat n) (skipn (Z.to_nat start) l).
Proof.
  intros Hs Hn. unfold slice.
  destruct (start <? 0) eqn:E1; [apply Z.ltb_lt in E1; lia|].
  destruct (start + n <? 0) eqn:E2; [apply Z.ltb_lt in E2; lia|].
  set (len := Z.of_nat (List.length l)).
  destruct (Z.le_gt_cases len start) as [Hge|Hlt].
  - rewrite !Z.min_r by lia. rewrite Z.sub_diag. cbn [Z.to_nat firstn].
    rewrite (skipn_all2 l) by (subst len; lia). now rewrite firstn_nil.
  - rewrite (Z.min_l start) by lia.
    destruct (Z.le_gt_cases (start + n) len) as [Hin|Hout].
    + rewrite Z.min_l by lia. f_equal. lia.
    + rewrite Z.min_r by lia.
      rewrite (firstn_all2 (n := Z.to_nat n)); [apply firstn_all2|];
        rewrite length_skipn; subst len; lia.
Qed.

Lemma ceil_least (a b c : Z) : 0 < b -> a <= c * b -> - ((- a) / b) <= c.
Proof.
  intros Hb H. enough (- c <= (- a) / b) by lia.
  apply Z.div_le_lower_bound; [exact Hb|]. lia.
Qed.

(** C7.  In mock mode, for any filter, any page from 1 on and any page
    size, the fetch returns at most as many rows as the page size (the
    window of the matching rows that starts after the earlier pages), and
    reports as total the number of all matching rows; for a positive page
    size the panel computes a page count, and wherever its Next button is
    enabled the page it leads to is at least 1, at most that count and at
    most every integer not below total / pageSize, that is at most the
    ceiling of total / pageSize.  The page count itself is at least 1, and
    is that ceiling as soon as one row matches. *)
Theorem call_page_is_bounded
  (Date_value : string -> option Z) (cfg : config) (net : response page_result)
  (from to ext : string) (p n : Z) :
  useMock cfg = true ->
  1 <= p ->
  0 <= n ->
  exists r,
    apiFetchCalls Date_value cfg net (mkQuery from to ext p n) = Resolved r
    /\ Z.of_nat (List.length (rows r)) <= n
    /\ rows r
       = firstn (Z.to_nat n)
           (skipn (Z.to_nat ((p - 1) * n))
              (filter (call_matches Date_value (mkQuery from to ext p n))
                      MOCK_CALLS))
    /\ total r
       = Z.of_nat (List.length
                     (filter (call_matches Date_value (mkQuery from to ext p n))
                             MOCK_CALLS))
    /\ (0 < n ->
        exists pages,
          totalPages (total r) n = Some pages
          /\ 1 <= pages
          /\ (0 < total r -> forall c, total r <= c * n -> pages <= c)
          /\ forall page,
               1 <= page ->
               next_disabled page pages = false ->
               1 <= next_page page pages <= pages
               /\ forall c, total r <= c * n -> next_page page pages <= c).
Proof.
  intros Hcfg Hp Hn. unfold apiFetchCalls. rewrite Hcfg.
  cbn [q_page q_pageSize]. eexists. split; [reflexivity|].
  cbn [rows total].
  split; [apply slice_length_le; nia|].
  split; [apply slice_window; nia|].
  split; [reflexivity|].
  generalize (Z.of_nat (List.length
                (filter (call_matches Date_value (mkQuery from to ext p n))
                        MOCK_CALLS))).
  intros tot Hpos. unfold totalPages, Math_ceil_div.
  destruct (n =? 0) eqn:E; [apply Z.eqb_eq in E; lia|].
  cbn [option_map]. eexists. split; [reflexivity|].
  split; [lia|].
  split; [intros Htot c Hc; pose proof (ceil_least _ _ _ Hpos Hc); nia|].
  intros page Hpage Hen. unfold next_disabled in Hen.
  apply Z.leb_gt in Hen. unfold next_page. split; [lia|].
  intros c Hc. pose proof (ceil_least _ _ _ Hpos Hc). lia.
Qed.

Lemma call_page_is_bounded_witness :
  useMock mock_cfg = true
  /\ 1 <= 2
  /\ 0 <= 10
  /\ exists r,
       apiFetchCalls (fun _ => None) mock_cfg Reject
                     (mkQuery "" "" "1001" 2 10) = Resolved r
       /\ Z.of_nat (List.length (rows r)) <= 10
       /\ total r = 36.
Proof.
  split; [reflexivity|]. split; [lia|]. split; [lia|].
  destruct (call_page_is_bounded (fun _ => None) mock_cfg Reject
              "" "" "1001" 2 10 eq_refl) as [r [E [L [_ [T _]]]]]; [lia|lia|].
  exists r. split; [exact E|]. split; [exact L|]. rewrite T.
  vm_compute. reflexivity.
Defined.

(** ** The realtime feed *)

(** C8.  A message that does not parse, or that parses to an object with
    neither a trunks nor a queues key, leaves the status snapshot exactly as
    it was. *)
Theorem malformed_message_is_discarded
  (JSON_parse : string -> option json) (data : string) (status : json) :
  (JSON_parse data = None
   \/ exists members,
        JSON_parse data = Some (JObj members)
        /\ lookup "trunks" members = None
        /\ lookup "queues" members = None) ->
  onmessage JSON_parse data status = status.
Proof.
  unfold onmessage. intros [-> | [members [-> [Ht Hq]]]]; [reflexivity|].
  cbn [prop]. rewrite Ht, Hq. reflexivity.
Qed.

Lemma malformed_message_is_discarded_witness :
  onmessage (fun _ => None) "not json" MOCK_STATUS = MOCK_STATUS
  /\ onmessage (fun _ => Some (JObj [("ping", JNum 1)])) "a ping" MOCK_STATUS
     = MOCK_STATUS.
Proof.
  split.
  - apply (malformed_message_is_discarded (fun _ => None) "not json" MOCK_STATUS).
    left. reflexivity.
  - apply (malformed_message_is_discarded
             (fun _ => Some (JObj [("ping", JNum 1)])) "a ping" MOCK_STATUS).
    right. exists [("ping", JNum 1)]. repeat split.
Defined.

(** Values that are not objects are discarded as well: reading a key of
    [null] throws inside the handler's [try], and a number, string, boolean
    or array has neither key. *)
Lemma non_object_message_is_discarded
  (JSON_parse : string -> option json) (data : string) (status msg : json) :
  JSON_parse data = Some msg ->
  (forall members, msg <> JObj members) ->
  onmessage JSON_parse data status = status.
Proof.
  unfold onmessage. intros -> H.
  destruct msg; try reflexivity. now elim (H members).
Qed.

(** C2, as stated, fails: a message with a trunks array and no queues key
    is accepted, but the snapshot that results has no queues at all, where
    the claim keeps those of the previous snapshot; and a message whose
    trunks key holds [null] is not accepted. *)
Lemma trunks_only_message_drops_queues :
  ~ (forall (JSON_parse : string -> option json) (data : string)
            (status : json) (members : list (string * json)),
       JSON_parse data = Some (JObj members) ->
       lookup "trunks" members <> None ->
       lookup "queues" members = None ->
       prop (onmessage JSON_parse data status) "queues" = prop status "queues")
  /\ ~ (forall (JSON_parse : string -> option json) (data : string)
               (status : json) (members : list (string * json)),
          JSON_parse data = Some (JObj members) ->
          lookup "trunks" members <> None ->
          lookup "queues" members = None ->
          onmessage JSON_parse data status = JObj members).
Proof.
  split; intros H.
  - specialize (H (fun _ => Some (JObj [("trunks", JArr [])])) "trunks only"
                  MOCK_STATUS [("trunks", JArr [])] eq_refl).
    cbn in H. assert (E := H ltac:(discriminate) eq_refl). discriminate E.
  - specialize (H (fun _ => Some (JObj [("trunks", JNull)])) "null trunks"
                  MOCK_STATUS [("trunks", JNull)] eq_refl).
    cbn in H. assert (E := H ltac:(discriminate) eq_refl). discriminate E.
Qed.

(** C2, amended.  A message that parses to an object with a trunks key and
    no queues key: when the value under trunks is truthy the snapshot
    becomes the message itself, with the trunks of the message and no
    queues; when it is falsy the message is discarded and the snapshot
    stays as it was. *)
Theorem trunks_only_message_replaces_snapshot
  (JSON_parse : string -> option json) (data : string) (status : json)
  (members : list (string * json)) (t : json) :
  JSON_parse data = Some (JObj members) ->
  lookup "trunks" members = Some t ->
  lookup "queues" members = None ->
  (truthy (Some t) = true ->
     onmessage JSON_parse data status = JObj members
     /\ prop (onmessage JSON_parse data status) "trunks" = Some (Some t)
     /\ prop (onmessage JSON_parse data status) "queues" = Some None)
  /\ (truthy (Some t) = false ->
        onmessage JSON_parse data status = status).
Proof.
  intros Hp Ht Hq. unfold onmessage. rewrite Hp. cbn [prop]. rewrite Ht, Hq.
  split; intros ->; cbn [truthy prop]; [|reflexivity].
  rewrite Ht, Hq. repeat split.
Qed.

Lemma trunks_only_message_replaces_snapshot_witness :
  onmessage (fun _ => Some (JObj [("trunks", JArr [trunk "AU-East" "Unreachable" 0])]))
            "trunks only" MOCK_STATUS
  = JObj [("trunks", JArr [trunk "AU-East" "Unreachable" 0])].
Proof.
  apply (trunks_only_message_replaces_snapshot
           (fun _ => Some (JObj [("trunks", JArr [trunk "AU-East" "Unreachable" 0])]))
           "trunks only" MOCK_STATUS
           [("trunks", JArr [trunk "AU-East" "Unreachable" 0])]
           (JArr [trunk "AU-East" "Unreachable" 0])
           eq_refl eq_refl eq_refl).
  reflexivity.
Defined.

(** ** CSV export *)

(** What [escape] does, case by case: a text with a comma or a newline is
    put between double quotes with its own double quotes doubled; any other
    text goes out as it is. *)
Lemma escape_cases (v : option json) :
  (includes comma (text_of v) = true \/ includes newline (text_of v) = true ->
   escape v = String dquote (double_quotes (text_of v) ++ String dquote ""))
  /\ (includes comma (text_of v) = false ->
      includes newline (text_of v) = false ->
      escape v = text_of v).
Proof.
  unfold escape. split.
  - intros [-> | ->]; [reflexivity|]. now rewrite orb_true_r.
  - now intros -> ->.
Qed.

(** C6.  The export of one call record whose source holds double quotes but
    no comma and no newline: the field is written as it is, with bare double
    quotes, neither enclosed in double quotes nor with its quotes doubled;
    the header is the list of the keys of the record. *)
Theorem csv_field_with_only_quotes_is_not_quoted :
  includes dquote quoted_caller = true
  /\ escape (Some (JStr quoted_caller)) = quoted_caller
  /\ export_csv [mkCdr "c2" quoted_caller "1002" "ANSWERED" 47
                       "2025-08-02 09:01:11"]
     = ("cdr-export.csv",
        "id,src,dst,disposition,duration,calldate" ++ String newline ""
        ++ "c2," ++ quoted_caller ++ ",1002,ANSWERED,47,2025-08-02 09:01:11").
Proof. repeat split. Qed.

(** ** The panel and the mock store *)

(** C1.  In mock mode, after the three fixtures are deleted the store is
    empty and every created record gets the identifier [-Infinity]; two
    creates give two records with that identifier, shown by the panel and
    held by the store alike; deleting one of them removes both rows from the
    panel and one record from the store, and the panel, now empty, no longer
    shows the record the store still holds. *)
Theorem panel_and_store_diverge_on_duplicate_ids :
  (exists st,
     session [DeleteRow 0; DeleteRow 0; DeleteRow 0;
              New 11 [SetName "A"]; New 22 [SetName "B"]] = Some st
     /\ map (fun r => get_id r) (data st)
        = [Some (Some NegInf); Some (Some NegInf)]
     /\ List.length (MOCK_EXTENSIONS st) = 2%nat)
  /\ (exists st,
        session [DeleteRow 0; DeleteRow 0; DeleteRow 0;
                 New 11 [SetName "A"]; New 22 [SetName "B"];
                 DeleteRow 0] = Some st
        /\ shown (data st) = []
        /\ stored (MOCK_EXTENSIONS st)
           = [Some (mkFields (Some NegInf) (Some "PJSIP") (Some "B") (Some "")
                             (Some false) (Some "") None)]).
Proof.
  split; eexists; (split; [vm_compute; reflexivity|]); split; reflexivity.
Qed.

(** ** The panel mirrors the store while identifiers are distinct integers *)

Lemma strict_eq_finite (a k : option num) :
  finite k -> strict_eq a k = true <-> a = k.
Proof.
  intros [z ->]. destruct a as [[| |w]|]; cbn; split; try discriminate.
  - intros H. apply Z.eqb_eq in H. now subst.
  - intros [= ->]. apply Z.eqb_refl.
Qed.

Lemma strict_eq_refl_finite (k : option num) : finite k -> strict_eq k k = true.
Proof. intros H. now apply strict_eq_finite. Qed.

Section OneKey.

Variable k : option num.
Hypothesis k_finite : finite k.

Let hit (e : obj) : bool := strict_eq (id (props e)) k.

Lemma no_hit_after (e : obj) (l : list obj) :
  NoDup (map key (e :: l)) -> hit e = true ->
  forall e', In e' l -> hit e' = false.
Proof.
  intros N He e' He'. cbn [map] in N. inversion N as [|? ? Hnot _]; subst.
  apply (strict_eq_finite _ _ k_finite) in He.
  destruct (hit e') eqn:E; [|reflexivity].
  apply (strict_eq_finite _ _ k_finite) in E.
  elim Hnot. change (id (props e)) with (key e) in He.
  change (id (props e')) with (key e') in E.
  rewrite He, <- E. now apply in_map.
Qed.

Lemma map_no_hit (x : obj) (l : list obj) :
  (forall e, In e l -> hit e = false) ->
  map (fun e => if hit e then x else e) l = l.
Proof.
  intros H. rewrite <- (map_id l) at 2. apply map_ext_in.
  intros e He. now rewrite (H e He).
Qed.

Lemma filter_no_hit (l : list obj) :
  (forall e, In e l -> hit e = false) ->
  filter (fun e => negb (hit e)) l = l.
Proof.
  induction l as [|e l IH]; intros H; [reflexivity|].
  cbn [filter]. rewrite (H e (or_introl eq_refl)). cbn [negb].
  f_equal. apply IH. intros e' He'. apply H. now right.
Qed.

Lemma set_at_findIndex (x : obj) (l : list obj) :
  NoDup (map key l) ->
  0 <= findIndex hit l ->
  set_at l (Z.to_nat (findIndex hit l)) x
  = map (fun e => if hit e then x else e) l.
Proof.
  induction l as [|e l IH]; intros N Hi; [cbn in Hi; lia|].
  cbn [findIndex] in *. cbn [map]. destruct (hit e) eqn:He.
  - cbn [Z.to_nat set_at]. f_equal. symmetry. apply map_no_hit.
    now apply (no_hit_after e).
  - destruct (findIndex hit l <? 0) eqn:E; [lia|].
    apply Z.ltb_ge in E.
    replace (Z.to_nat (findIndex hit l + 1)) with (S (Z.to_nat (findIndex hit l)))
      by lia.
    cbn [set_at]. f_equal. apply IH; [|exact E].
    cbn [map] in N. now inversion N.
Qed.

Lemma splice1_findIndex (l : list obj) :
  NoDup (map key l) ->
  0 <= findIndex hit l ->
  splice1 l (Z.to_nat (findIndex hit l)) = filter (fun e => negb (hit e)) l.
Proof.
  induction l as [|e l IH]; intros N Hi; [cbn in Hi; lia|].
  cbn [findIndex] in *. cbn [filter]. destruct (hit e) eqn:He.
  - cbn [Z.to_nat splice1 negb]. symmetry. apply filter_no_hit.
    now apply (no_hit_after e).
  - destruct (findIndex hit l <? 0) eqn:E; [lia|].
    apply Z.ltb_ge in E.
    replace (Z.to_nat (findIndex hit l + 1)) with (S (Z.to_nat (findIndex hit l)))
      by lia.
    cbn [splice1 negb]. f_equal. apply IH; [|exact E].
    cbn [map] in N. now inversion N.
Qed.

End OneKey.

Lemma findIndex_found {A : Type} (p : A -> bool) (l : list A) :
  0 <= findIndex p l ->
  exists e, nth_error l (Z.to_nat (findIndex p l)) = Some e /\ p e = true.
Proof.
  induction l as [|x l IH]; intros Hi; [cbn in Hi; lia|].
  cbn [findIndex] in *. destruct (p x) eqn:Px.
  - exists x. now split.
  - destruct (findIndex p l <? 0) eqn:E; [lia|]. apply Z.ltb_ge in E.
    destruct (IH E) as [e [He Pe]]. exists e. split; [|exact Pe].
    replace (Z.to_nat (findIndex p l + 1)) with (S (Z.to_nat (findIndex p l)))
      by lia.
    exact He.
Qed.

Lemma NoDup_map_same {A B : Type} (f : A -> B) (l : list A) (x y : A) :
  NoDup (map f l) -> In x l -> In y l -> f x = f y -> x = y.
Proof.
  induction l as [|a l IH]; intros N Hx Hy E; [contradiction|].
  cbn [map] in N. inversion N as [|? ? Hnot N']; subst.
  destruct Hx as [->|Hx], Hy as [->|Hy].
  - reflexivity.
  - elim Hnot. rewrite E. now apply in_map.
  - elim Hnot. rewrite <- E. now apply in_map.
  - now apply IH.
Qed.

Lemma nth_error_set_at {A : Type} (l : list A) (n : nat) (x : A) :
  (n < List.length l)%nat -> nth_error (set_at l n x) n = Some x.
Proof.
  revert n. induction l as [|y l IH]; intros [|n] H; cbn in *; try lia.
  - reflexivity.
  - apply IH. lia.
Qed.

Lemma Permutation_filter {A : Type} (p : A -> bool) (l l' : list A) :
  Permutation l l' -> Permutation (filter p l) (filter p l').
Proof.
  induction 1 as [|x l l' _ IH|x y l|l l' l'' _ IH1 _ IH2]; cbn [filter].
  - constructor.
  - destruct (p x); [now constructor|exact IH].
  - destruct (p x), (p y); try reflexivity. constructor.
  - now transitivity (filter p l').
Qed.

Lemma shown_filter (k : option num) (d : list value) :
  shown (filter (fun r => negb (has_id k r)) d)
  = filter (fun x => negb (key_is k x)) (shown d).
Proof.
  induction d as [|r d IH]; [reflexivity|].
  cbn [filter shown map]. fold (shown d).
  destruct r as [|o]; cbn [has_id key_is negb]; [cbn; now f_equal|].
  destruct (strict_eq (id (props o)) k); cbn [negb shown map]; [exact IH|].
  fold (shown (filter (fun r => negb (has_id k r)) d)). now f_equal.
Qed.

Lemma stored_filter (k : option num) (l : list obj) :
  stored (filter (fun e => negb (strict_eq (id (props e)) k)) l)
  = filter (fun x => negb (key_is k x)) (stored l).
Proof.
  induction l as [|e l IH]; [reflexivity|].
  cbn [filter stored map key_is]. fold (stored l).
  destruct (strict_eq (id (props e)) k); cbn [negb stored map]; [exact IH|].
  fold (stored (filter (fun e => negb (strict_eq (id (props e)) k)) l)).
  now f_equal.
Qed.

Lemma shown_replace (k : option num) (x : obj) (d : list value) :
  shown (map (fun r => if has_id k r then Obj x else r) d)
  = map (fun y => if key_is k y then Some (props x) else y) (shown d).
Proof.
  unfold shown. rewrite !map_map. apply map_ext. intros [|o]; cbn; [reflexivity|].
  now destruct (strict_eq (id (props o)) k).
Qed.

Lemma stored_replace (k : option num) (x : obj) (l : list obj) :
  stored (map (fun e => if strict_eq (id (props e)) k then x else e) l)
  = map (fun y => if key_is k y then Some (props x) else y) (stored l).
Proof.
  unfold stored. rewrite !map_map. apply map_ext. intros e. cbn.
  now destruct (strict_eq (id (props e)) k).
Qed.

Lemma heap_ok_weaken (n m : nat) (d : list value) :
  (n <= m)%nat ->
  forallb (fun r => match r with
                    | Obj x => Nat.ltb (oid x) n
                    | undefined => true
                    end) d = true ->
  forallb (fun r => match r with
                    | Obj x => Nat.ltb (oid x) m
                    | undefined => true
                    end) d = true.
Proof.
  intros Hnm H. rewrite forallb_forall in *. intros r Hr.
  specialize (H r Hr). destruct r as [|x]; [reflexivity|].
  apply Nat.ltb_lt in H. apply Nat.ltb_lt. lia.
Qed.

Lemma forallb_filter_keep {A : Type} (p q : A -> bool) (l : list A) :
  forallb p l = true -> forallb p (filter q l) = true.
Proof.
  rewrite !forallb_forall. intros H x Hx. apply H.
  now apply filter_In in Hx.
Qed.

(** Dropping records from the store keeps its identifiers distinct. *)
Lemma distinct_keys_filter (keep : obj -> bool) (store : list obj)
  (N : NoDup (map key store)) :
  NoDup (map key (filter keep store)).
Proof.
  revert N. induction store as [|e store IH]; cbn [map filter]; intros N.
  - constructor.
  - apply NoDup_cons_iff in N as [Hfresh N].
    destruct (keep e); [|now apply IH].
    cbn [map]. apply NoDup_cons; [|now apply IH].
    contradict Hfresh.
    apply in_map_iff in Hfresh as [e' [Hk He']].
    apply filter_In in He' as [He' _].
    apply in_map_iff. now exists e'.
Qed.

(** Under the invariant every displayed row is an object whose fields are
    those of a record of the store. *)
Lemma mirrors_row_in_store (st : appstate) (r : obj) :
  mirrors st -> In (Obj r) (data st) ->
  exists e, In e (MOCK_EXTENSIONS st) /\ props e = props r.
Proof.
  intros M Hr.
  assert (H : In (Some (props r)) (shown (data st))).
  { unfold shown. apply in_map_iff. now exists (Obj r). }
  apply (Permutation_in _ (mirror_rows st M)) in H.
  unfold stored in H. apply in_map_iff in H as [e [He Hin]].
  exists e. split; [exact Hin|]. now injection He.
Qed.

Lemma mirrors_all_objects (st : appstate) :
  mirrors st -> all_objects (data st) = true.
Proof.
  intros M. unfold all_objects. apply forallb_forall. intros r Hr.
  destruct r as [|o]; [|reflexivity]. exfalso.
  assert (H : In None (shown (data st))).
  { unfold shown. apply in_map_iff. now exists undefined. }
  apply (Permutation_in _ (mirror_rows st M)) in H.
  unfold stored in H. apply in_map_iff in H as [e [He _]]. discriminate.
Qed.

Lemma mirrors_row_finite (st : appstate) (r : obj) :
  mirrors st -> In (Obj r) (data st) -> finite (key r).
Proof.
  intros M Hr. destruct (mirrors_row_in_store st r M Hr) as [e [He Hp]].
  pose proof (mirror_finite st M) as F. rewrite Forall_forall in F.
  specialize (F e He). unfold key in *. now rewrite <- Hp.
Qed.

(** *** What the mock adapter does to the store *)

Ltac run_panel :=
  unfold createExt, createExt_start, createExt_settle,
         saveEdit, saveEdit_start, saveEdit_settle,
         deleteExt, deleteExt_start, deleteExt_settle,
         bind, ret, get, sleep, new_object, setData, pushAudit;
  cbn [negb fst snd data audit role clock fresh MOCK_EXTENSIONS].

Lemma apiDeleteExtension_mock (cfg : config) (net : response ack)
  (k : option num) (st : appstate) :
  useMock cfg = true ->
  finite k ->
  NoDup (map key (MOCK_EXTENSIONS st)) ->
  apiDeleteExtension cfg net k st
  = Some (Resolved (mkAck true),
          mkApp (filter (fun e => negb (strict_eq (id (props e)) k))
                        (MOCK_EXTENSIONS st))
                (data st) (audit st) (role st) (clock st) (fresh st)).
Proof.
  intros Hcfg Hk N. unfold apiDeleteExtension. rewrite Hcfg.
  unfold bind, get, ret, set_store.
  pose proof (findIndex_range (fun e => strict_eq (id (props e)) k)
                              (MOCK_EXTENSIONS st)) as R.
  destruct (0 <=? findIndex (fun e => strict_eq (id (props e)) k)
                            (MOCK_EXTENSIONS st)) eqn:E.
  - apply Z.leb_le in E.
    rewrite (splice1_findIndex k Hk (MOCK_EXTENSIONS st) N E). reflexivity.
  - apply Z.leb_gt in E.
    assert (Ha : findIndex (fun e => strict_eq (id (props e)) k)
                           (MOCK_EXTENSIONS st) = -1) by lia.
    pose proof (proj1 (findIndex_absent _ _) Ha) as Hn.
    rewrite (filter_no_hit k (MOCK_EXTENSIONS st) Hn). now destruct st.
Qed.

Lemma apiUpdateExtension_mock (cfg : config) (net : response (option fields))
  (k : option num) (payload : fields) (st : appstate) (e0 : obj) :
  useMock cfg = true ->
  finite k ->
  NoDup (map key (MOCK_EXTENSIONS st)) ->
  In e0 (MOCK_EXTENSIONS st) ->
  key e0 = k ->
  apiUpdateExtension cfg net k payload st
  = Some (Resolved (Obj (mkObj (fresh st) (spread (props e0) payload))),
          mkApp (map (fun e => if strict_eq (id (props e)) k
                               then mkObj (fresh st) (spread (props e0) payload)
                               else e) (MOCK_EXTENSIONS st))
                (data st) (audit st) (role st) (clock st) (S (fresh st))).
Proof.
  intros Hcfg Hk N Hin Hkey. unfold apiUpdateExtension. rewrite Hcfg.
  unfold bind, get, ret, set_store, new_object.
  cbn [MOCK_EXTENSIONS data audit role clock fresh].
  set (hit := fun e : obj => strict_eq (id (props e)) k).
  pose proof (findIndex_range hit (MOCK_EXTENSIONS st)) as R.
  assert (Hi : 0 <= findIndex hit (MOCK_EXTENSIONS st)).
  { destruct (Z.eq_dec (findIndex hit (MOCK_EXTENSIONS st)) (-1)) as [Ha|]; [|lia].
    pose proof (proj1 (findIndex_absent _ _) Ha e0 Hin) as Hn.
    subst hit. cbn in Hn.
    unfold key in Hkey. rewrite Hkey, (strict_eq_refl_finite k Hk) in Hn.
    discriminate. }
  destruct (findIndex_found hit (MOCK_EXTENSIONS st) Hi) as [e [He Pe]].
  assert (Ee : e = e0).
  { subst hit. cbn in Pe. apply (strict_eq_finite _ _ Hk) in Pe.
    apply nth_error_In in He.
    apply (NoDup_map_same key (MOCK_EXTENSIONS st)); try assumption.
    unfold key at 1. now rewrite Pe. }
  subst e.
  apply Z.leb_le in Hi as Hb. rewrite Hb. apply Z.leb_le in Hb.
  assert (E : (findIndex hit (MOCK_EXTENSIONS st) <? 0) = false)
    by (apply Z.ltb_ge; lia).
  assert (A1 : at_index (MOCK_EXTENSIONS st) (findIndex hit (MOCK_EXTENSIONS st))
               = Obj e0)
    by (unfold at_index; now rewrite E, He).
  rewrite A1. cbn [spread_source MOCK_EXTENSIONS].
  unfold at_index. rewrite E, nth_error_set_at by lia.
  rewrite (set_at_findIndex k Hk _ (MOCK_EXTENSIONS st) N Hi).
  reflexivity.
Qed.

Lemma fold_max_finite (l : list obj) :
  Forall (fun e => finite (key e)) l ->
  forall a, exists m,
    fold_left num_max (map (fun e => to_number (id (props e))) l) (Fin a) = Fin m
    /\ a <= m
    /\ forall e z, In e l -> key e = Some (Fin z) -> z <= m.
Proof.
  induction 1 as [|e l [z Hz] _ IH]; intros a.
  - exists a. cbn. repeat split; [lia|contradiction].
  - cbn [map fold_left]. unfold key in Hz. rewrite Hz. cbn [to_number num_max].
    destruct (IH (Z.max a z)) as [m [Hm [Ham Hall]]].
    exists m. split; [exact Hm|]. split; [lia|].
    intros e' z' [<-|Hin] Hk.
    + unfold key in Hk. rewrite Hz in Hk. injection Hk as <-. lia.
    + now apply (Hall e').
Qed.

(** On a store that is not empty and holds integer identifiers,
    [Math.max] is an integer no identifier exceeds. *)
Lemma Math_max_store (l : list obj) :
  l <> [] ->
  Forall (fun e => finite (key e)) l ->
  exists m,
    Math_max (map (fun e => to_number (id (props e))) l) = Fin m
    /\ forall e z, In e l -> key e = Some (Fin z) -> z <= m.
Proof.
  intros Hne F. destruct l as [|e l]; [congruence|].
  inversion F as [|? ? [z Hz] F']; subst.
  unfold Math_max. cbn [map fold_left]. unfold key in Hz. rewrite Hz.
  cbn [to_number num_max].
  destruct (fold_max_finite l F' z) as [m [Hm [Hzm Hall]]].
  exists m. split; [exact Hm|].
  intros e' z' [<-|Hin] Hk.
  - unfold key in Hk. rewrite Hz in Hk. injection Hk as <-. lia.
  - now apply (Hall e').
Qed.

(** *** Each action keeps the panel in step with the store *)

Lemma delete_keeps_mirror (cfg : config) (net : response ack) (dt : Z)
  (k : option num) (st : appstate) :
  useMock cfg = true -> mirrors st -> finite k ->
  exists st', deleteExt cfg net dt true k st = Some (tt, st') /\ mirrors st'.
Proof.
  intros Hcfg M Hk. pose proof (mirrors_all_objects st M) as Hobj.
  destruct M as [Hh Hp Hf Hn].
  run_panel. rewrite (remove_by_id_objects k (data st) Hobj).
  rewrite apiDeleteExtension_mock by assumption.
  run_panel. eexists. split; [reflexivity|].
  constructor; cbn [data MOCK_EXTENSIONS fresh heap_ok].
  - now apply forallb_filter_keep.
  - rewrite shown_filter, stored_filter. now apply Permutation_filter.
  - apply (incl_Forall (incl_filter _ _) Hf).
  - now apply distinct_keys_filter.
Qed.

Lemma update_keeps_mirror (cfg : config) (net : response (option fields))
  (dt : Z) (row : obj) (es : list edit) (st : appstate) :
  useMock cfg = true -> mirrors st -> In (Obj row) (data st) ->
  exists st',
    saveEdit cfg net dt row (ExtensionModal (Some row) es) st = Some (tt, st')
    /\ mirrors st'.
Proof.
  intros Hcfg M Hrow. pose proof (mirrors_all_objects st M) as Hobj.
  pose proof (mirrors_row_finite st row M Hrow) as Hk.
  destruct (mirrors_row_in_store st row M Hrow) as [e0 [He0 Hp0]].
  destruct M as [Hh Hp Hf Hn].
  assert (Hkey : key e0 = id (props row)) by (unfold key; now rewrite Hp0).
  assert (Hform : id (ExtensionModal (Some row) es) = id (props row))
    by apply ExtensionModal_id.
  run_panel. rewrite (replace_by_id_objects row _ (data st) Hobj).
  rewrite (apiUpdateExtension_mock cfg net (id (props row)) _ _ e0)
    by assumption.
  run_panel.
  rewrite replace_by_id_objects by now apply all_objects_replace.
  rewrite replace_twice
    by (cbn [props spread id]; rewrite Hform; apply over_same).
  eexists. split; [reflexivity|].
  set (merged := mkObj (S (fresh st))
                       (spread (props e0) (ExtensionModal (Some row) es))).
  assert (Hm : key merged = id (props row)).
  { unfold key, merged. cbn [props spread id].
    rewrite Hform, <- Hkey. unfold key. apply over_same. }
  constructor; cbn [data MOCK_EXTENSIONS fresh heap_ok].
  - apply forallb_forall. intros r Hr. apply in_map_iff in Hr as [r0 [Hr0 Hin]].
    unfold heap_ok in Hh. rewrite forallb_forall in Hh. specialize (Hh r0 Hin).
    destruct (has_id (id (props row)) r0); subst r.
    + apply Nat.ltb_lt. cbn. lia.
    + destruct r0 as [|x]; [reflexivity|]. cbn [fresh].
      apply Nat.ltb_lt in Hh. apply Nat.ltb_lt. lia.
  - rewrite shown_replace, stored_replace. now apply Permutation_map.
  - apply Forall_forall. intros e He. apply in_map_iff in He as [e1 [He1 Hin]].
    rewrite Forall_forall in Hf.
    destruct (strict_eq (id (props e1)) (id (props row))); subst e.
    + now rewrite Hm.
    + now apply Hf.
  - rewrite map_map.
    replace (map (fun e => key (if strict_eq (id (props e)) (id (props row))
                                then merged else e)) (MOCK_EXTENSIONS st))
      with (map key (MOCK_EXTENSIONS st)); [exact Hn|].
    apply map_ext. intros e.
    destruct (strict_eq (id (props e)) (id (props row))) eqn:E; [|reflexivity].
    apply (strict_eq_finite _ _ Hk) in E. rewrite Hm. exact E.
Qed.

Lemma create_keeps_mirror (cfg : config) (net : response (option fields))
  (dt rnd : Z) (es : list edit) (st : appstate) :
  useMock cfg = true -> mirrors st -> MOCK_EXTENSIONS st <> [] ->
  exists st',
    createExt cfg net dt rnd (ExtensionModal None es) st = Some (tt, st')
    /\ mirrors st'.
Proof.
  intros Hcfg M Hne. destruct M as [Hh Hp Hf Hn].
  destruct (Math_max_store (MOCK_EXTENSIONS st) Hne Hf) as [m [Hmax Hle]].
  assert (Hform : id (ExtensionModal None es) = None)
    by apply ExtensionModal_id.
  run_panel. unfold apiCreateExtension. rewrite Hcfg.
  unfold bind, get, ret, set_store, new_object.
  cbn [negb fst snd data audit role clock fresh MOCK_EXTENSIONS].
  rewrite Hmax. cbn [num_succ map same_object oid]. rewrite Nat.eqb_refl.
  eexists. split; [reflexivity|].
  set (row := mkObj (S (fresh st)) _).
  assert (Hrow : key row = Some (Fin (m + 1))).
  { unfold key, row. cbn [props spread id]. now rewrite Hform. }
  assert (Hkeep : map (fun r => if same_object r (mkObj (fresh st)
                       (spread (spread (mkFields (Some (Fin rnd)) None None None
                                                 None None None)
                                       (ExtensionModal None es))
                               (mkFields None None None None None None
                                         (Some true))))
                                then Obj row else r) (data st) = data st).
  { rewrite <- (map_id (data st)) at 2. apply map_ext_in. intros r Hr.
    unfold heap_ok in Hh. rewrite forallb_forall in Hh. specialize (Hh r Hr).
    destruct r as [|x]; [reflexivity|]. cbn [same_object oid].
    apply Nat.ltb_lt in Hh. destruct (Nat.eqb_spec (oid x) (fresh st)); [lia|].
    reflexivity. }
  constructor; cbn [data MOCK_EXTENSIONS fresh heap_ok]; rewrite ?Hkeep.
  - unfold heap_ok. cbn [data fresh forallb]. apply andb_true_intro. split.
    + apply Nat.ltb_lt. cbn. lia.
    + apply (heap_ok_weaken (fresh st)); [lia|exact Hh].
  - cbn [shown map]. fold (shown (data st)). unfold stored. rewrite map_app.
    cbn [map]. fold (stored (MOCK_EXTENSIONS st)).
    rewrite <- Permutation_cons_append. now constructor.
  - apply Forall_app. split; [exact Hf|].
    constructor; [|constructor]. now exists (m + 1).
  - rewrite map_app. cbn [map].
    apply (Permutation_NoDup (Permutation_cons_append _ _)).
    constructor; [|exact Hn]. rewrite Hrow. intros Hin.
    apply in_map_iff in Hin as [e [He Hin]].
    specialize (Hle e (m + 1) Hin He). lia.
Qed.

Lemma loaded_mirrors : mirrors loaded.
Proof.
  constructor.
  - reflexivity.
  - vm_compute. apply Permutation_refl.
  - repeat constructor; eexists; reflexivity.
  - cbn. repeat constructor; cbn; intuition discriminate.
Qed.

(** Every action of the panel, run on a page that mirrors a store of
    distinct integer identifiers, succeeds and leaves the page mirroring the
    store, unless it is a create that meets an empty store. *)
Lemma click_keeps_mirror (c : click) (st : appstate) :
  mirrors st ->
  match c with
  | New _ _ => MOCK_EXTENSIONS st <> []
  | _ => True
  end ->
  exists st', do_click c st = Some (tt, st') /\ mirrors st'.
Proof.
  intros M Hc. destruct c as [rnd es|i es|i]; cbn [do_click].
  - now apply create_keeps_mirror.
  - unfold bind at 1, get.
    destruct (nth_error (data st) i) as [[|r]|] eqn:E;
      try (exists st; now split).
    apply update_keeps_mirror; [reflexivity|exact M|].
    now apply nth_error_In in E.
  - unfold bind at 1, get.
    destruct (nth_error (data st) i) as [[|r]|] eqn:E;
      try (exists st; now split).
    apply delete_keeps_mirror; [reflexivity|exact M|].
    apply (mirrors_row_finite st r M). now apply nth_error_In in E.
Qed.

(** The same for a whole sequence of actions from the freshly loaded page:
    after it the panel shows exactly the records of the store. *)
Lemma clicks_keep_mirror (cs : list click) :
  forall st, mirrors st -> creates_on_records cs st ->
  exists st', do_clicks cs st = Some (tt, st') /\ mirrors st'.
Proof.
  induction cs as [|c cs IH]; intros st M Hs.
  - exists st. now split.
  - destruct Hs as [Hc Hrest].
    destruct (click_keeps_mirror c st M Hc) as [st1 [E1 M1]].
    destruct (IH st1 M1 (Hrest st1 E1)) as [st2 [E2 M2]].
    exists st2. split; [|exact M2].
    cbn [do_clicks]. unfold bind. now rewrite E1.
Qed.

(** The example of the specification: creating Lobby on the fixtures puts
    at the head of the list the record the store made, with the identifier
    1004, one more than the largest identifier of the store. *)
Example create_lobby :
  exists st,
    session [New 123456 [SetName "Lobby"; SetCallerid "Lobby <1050>"]] = Some st
    /\ hd_error (shown (data st))
       = Some (Some (mkFields (Some (Fin 1004)) (Some "PJSIP") (Some "Lobby")
                              (Some "Lobby <1050>") (Some false) (Some "") None))
    /\ Permutation (shown (data st)) (stored (MOCK_EXTENSIONS st)).
Proof.
  eexists. split; [vm_compute; reflexivity|]. split; [reflexivity|].
  cbn. apply Permutation_cons_append.
Qed.

(** ** Durations *)

Lemma two_digits_below_100 (z : Z) : 0 <= z < 100 -> two_digits z = true.
Proof.
  intros Hz.
  assert (T : forallb two_digits (map Z.of_nat (seq 0 100)) = true)
    by (vm_compute; reflexivity).
  rewrite forallb_forall in T. apply T.
  apply in_map_iff. exists (Z.to_nat z). split; [lia|].
  apply in_seq. lia.
Qed.

Lemma pad2_shape (z : Z) :
  0 <= z < 100 ->
  exists a b,
    pad2 z = String a (String b EmptyString)
    /\ digit_value a * 10 + digit_value b = z.
Proof.
  intros Hz. pose proof (two_digits_below_100 z Hz) as T.
  unfold two_digits in T.
  destruct (pad2 z) as [|a [|b [|c rest]]]; try discriminate.
  exists a, b. split; [reflexivity|].
  apply andb_prop in T as [_ T]. now apply Z.eqb_eq in T.
Qed.

Lemma hms_parts (s : Z) :
  0 <= s < 360000 ->
  0 <= s / 3600 < 100
  /\ 0 <= Z.rem s 3600 / 60 < 60
  /\ 0 <= Z.rem s 60 < 60
  /\ s = s / 3600 * 3600 + (Z.rem s 3600 / 60) * 60 + Z.rem s 60.
Proof.
  intros Hs.
  rewrite !Z.rem_mod_nonneg by lia.
  pose proof (Z.mod_pos_bound s 3600 ltac:(lia)).
  pose proof (Z.mod_pos_bound s 60 ltac:(lia)).
  pose proof (Z.div_mod s 3600 ltac:(lia)).
  pose proof (Z.div_mod (s mod 3600) 60 ltac:(lia)).
  pose proof (Z.mod_pos_bound (s mod 3600) 60 ltac:(lia)).
  assert (E : s mod 60 = (s mod 3600) mod 60).
  { symmetry. apply Z.mod_mod_divide. exists 60. lia. }
  repeat split; lia.
Qed.

(** X1.  A duration from 0 up to 99:59:59 is shown on exactly eight
    characters, and two different durations in that range are never shown
    alike. *)
Theorem secondsToHMS_fixed_width_injective (s t : Z) :
  0 <= s < 360000 ->
  0 <= t < 360000 ->
  String.length (secondsToHMS s) = 8%nat
  /\ (secondsToHMS s = secondsToHMS t -> s = t).
Proof.
  intros Hs Ht.
  destruct (hms_parts s Hs) as [Hh [Hm [Hc Es]]].
  destruct (hms_parts t Ht) as [Hh' [Hm' [Hc' Et]]].
  unfold secondsToHMS. cbn [map join].
  destruct (pad2_shape (s / 3600)) as [a1 [a2 [Pa A]]]; [lia|].
  destruct (pad2_shape (Z.rem s 3600 / 60)) as [b1 [b2 [Pb B]]]; [lia|].
  destruct (pad2_shape (Z.rem s 60)) as [c1 [c2 [Pc C]]]; [lia|].
  destruct (pad2_shape (t / 3600)) as [a1' [a2' [Pa' A']]]; [lia|].
  destruct (pad2_shape (Z.rem t 3600 / 60)) as [b1' [b2' [Pb' B']]]; [lia|].
  destruct (pad2_shape (Z.rem t 60)) as [c1' [c2' [Pc' C']]]; [lia|].
  rewrite Pa, Pb, Pc, Pa', Pb', Pc'.
  cbn [append String.length]. split; [reflexivity|].
  intros E. injection E as -> -> -> -> -> ->. lia.
Qed.

Lemma secondsToHMS_fixed_width_injective_witness :
  String.length (secondsToHMS 3725) = 8%nat
  /\ (secondsToHMS 3725 = secondsToHMS 47 -> 3725 = 47).
Proof.
  apply (secondsToHMS_fixed_width_injective 3725 47); lia.
Defined.

(** ** The pager and the pages *)

(** X2.  With a page count of at least 1 and a page inside 1..count, Prev
    and Next keep the page inside 1..count; Prev is disabled exactly on the
    first page and Next exactly on the last; and where Next is enabled,
    Next followed by Prev comes back to the page. *)
Theorem pager_stays_in_range (page pages : Z) :
  1 <= page <= pages ->
  1 <= next_page page pages <= pages
  /\ 1 <= prev_page page <= pages
  /\ (prev_disabled page = true <-> page = 1)
  /\ (next_disabled page pages = true <-> page = pages)
  /\ (next_disabled page pages = false ->
      next_page page pages = page + 1
      /\ prev_page (next_page page pages) = page)
  /\ (prev_disabled page = false ->
      prev_page page = page - 1
      /\ next_page (prev_page page) pages = page).
Proof.
  intros H. unfold next_page, prev_page, prev_disabled, next_disabled.
  split; [lia|]. split; [lia|].
  split; [split; [intros E; apply Z.leb_le in E; lia|intros ->; reflexivity]|].
  split; [split; [intros E; apply Z.leb_le in E; lia
                 |intros ->; apply Z.leb_refl]|].
  split; intros E; apply Z.leb_gt in E; lia.
Qed.

Lemma pager_stays_in_range_witness :
  1 <= next_page 3 7 <= 7 /\ prev_page (next_page 3 7) = 3.
Proof.
  destruct (pager_stays_in_range 3 7 ltac:(lia)) as [A [_ [_ [_ [B _]]]]].
  split; [exact A|]. apply B. reflexivity.
Defined.

Lemma firstn_skipn_more {A : Type} (a b : nat) (l : list A) :
  (firstn a l ++ firstn b (skipn a l))%list = firstn (a + b) l.
Proof.
  revert l. induction a as [|a IH]; intros l; [reflexivity|].
  destruct l as [|x l]; cbn [firstn skipn Nat.add app].
  - now rewrite firstn_nil.
  - now rewrite IH.
Qed.

Lemma windows_concat {A : Type} (n k : nat) (l : list A) :
  flat_map (fun i => firstn n (skipn ((i - 1) * n) l)) (seq 1 k)
  = firstn (k * n) l.
Proof.
  induction k as [|k IH]; [reflexivity|].
  rewrite seq_S, flat_map_app, IH. cbn [flat_map]. rewrite app_nil_r.
  replace (1 + k - 1)%nat with k by lia.
  rewrite firstn_skipn_more. f_equal. lia.
Qed.

Lemma slice_of_nil {A : Type} (a b : Z) : slice (@nil A) a b = [].
Proof. unfold slice. rewrite skipn_nil. apply firstn_nil. Qed.

Lemma slice_incl {A : Type} (l : list A) (a b : Z) (x : A) :
  In x (slice l a b) -> In x l.
Proof.
  unfold slice. intros H.
  set (k := Z.to_nat _) in H. set (m := Z.to_nat _) in H.
  rewrite <- (firstn_skipn m l). apply in_or_app. right.
  rewrite <- (firstn_skipn k (skipn m l)). apply in_or_app. now left.
Qed.

Lemma flat_map_ext_in {A B : Type} (f g : A -> list B) (l : list A) :
  (forall x, In x l -> f x = g x) -> flat_map f l = flat_map g l.
Proof.
  induction l as [|x l IH]; intros H; [reflexivity|].
  cbn [flat_map]. rewrite (H x (or_introl eq_refl)).
  f_equal. apply IH. intros y Hy. apply H. now right.
Qed.

Lemma ceil_covers (len n : Z) : 0 < n -> len <= (- (- len / n)) * n.
Proof.
  intros Hn. pose proof (Z.mod_pos_bound (- len) n Hn).
  pose proof (Z.div_mod (- len) n ltac:(lia)). nia.
Qed.

Lemma slices_concat {A : Type} (l : list A) (n pages : Z) :
  0 < n ->
  Z.of_nat (List.length l) <= pages * n ->
  flat_map (fun i => slice l ((Z.of_nat i - 1) * n) ((Z.of_nat i - 1) * n + n))
           (seq 1 (Z.to_nat pages))
  = l
  /\ forall p, 1 <= p -> pages < p -> slice l ((p - 1) * n) ((p - 1) * n + n) = [].
Proof.
  intros Hn Hcover. split.
  - rewrite (flat_map_ext_in _
               (fun i => firstn (Z.to_nat n)
                                (skipn ((i - 1) * Z.to_nat n) l))).
    + rewrite windows_concat. apply firstn_all2. nia.
    + intros i Hi. apply in_seq in Hi.
      rewrite slice_window by nia. do 2 f_equal. nia.
  - intros p Hp Hlast. rewrite slice_window by nia.
    rewrite skipn_all2; [apply firstn_nil|]. nia.
Qed.

Lemma Resolved_inj {A : Type} (x y : A) : Resolved x = Resolved y -> x = y.
Proof. now intros [= ->]. Qed.

Lemma rows_mkPage (l : list cdr) (t : Z) : rows (mkPage l t) = l.
Proof. reflexivity. Qed.

Lemma total_mkPage (l : list cdr) (t : Z) : total (mkPage l t) = t.
Proof. reflexivity. Qed.

Lemma apiFetchCalls_mock (Date_value : string -> option Z) (cfg : config)
  (net : response page_result) (from to ext : string) (p n : Z) :
  useMock cfg = true ->
  apiFetchCalls Date_value cfg net (mkQuery from to ext p n)
  = Resolved
      (mkPage
         (slice (filter (call_matches Date_value (mkQuery from to ext 1 n))
                        MOCK_CALLS)
                ((p - 1) * n) ((p - 1) * n + n))
         (Z.of_nat (List.length
            (filter (call_matches Date_value (mkQuery from to ext 1 n))
                    MOCK_CALLS)))).
Proof. intros H. unfold apiFetchCalls. rewrite H. reflexivity. Qed.

(** X3.  In mock mode, with a positive page size, reading the pages 1 to
    the page count one after the other gives every matching call record
    exactly once, in the order of the data set; every page after the last
    is empty; and the total does not depend on the page asked for. *)
Theorem pages_cover_the_result
  (Date_value : string -> option Z) (cfg : config) (net : response page_result)
  (from to ext : string) (n pages : Z) :
  useMock cfg = true ->
  0 < n ->
  totalPages
    (Z.of_nat (List.length
       (filter (call_matches Date_value (mkQuery from to ext 1 n)) MOCK_CALLS)))
    n = Some pages ->
  pages_read Date_value cfg net from to ext n (Z.to_nat pages)
  = filter (call_matches Date_value (mkQuery from to ext 1 n)) MOCK_CALLS
  /\ (forall p, pages < p ->
        page_rows Date_value cfg net (mkQuery from to ext p n) = [])
  /\ (forall p r,
        apiFetchCalls Date_value cfg net (mkQuery from to ext p n) = Resolved r ->
        total r
        = Z.of_nat (List.length
            (filter (call_matches Date_value (mkQuery from to ext 1 n))
                    MOCK_CALLS))).
Proof.
  intros Hcfg Hn Hpages.
  unfold pages_read, page_rows.
  rewrite (flat_map_ext_in _
             (fun i => slice (filter (call_matches Date_value
                                        (mkQuery from to ext 1 n)) MOCK_CALLS)
                             ((Z.of_nat i - 1) * n) ((Z.of_nat i - 1) * n + n)))
    by (intros i _; rewrite (apiFetchCalls_mock _ _ _ _ _ _ _ _ Hcfg);
        apply rows_mkPage).
  assert (Hpage : forall p,
             match apiFetchCalls Date_value cfg net (mkQuery from to ext p n) with
             | Resolved r => rows r
             | Rejected => []
             end
             = slice (filter (call_matches Date_value
                                (mkQuery from to ext 1 n)) MOCK_CALLS)
                     ((p - 1) * n) ((p - 1) * n + n))
    by (intros p; rewrite (apiFetchCalls_mock _ _ _ _ _ _ _ _ Hcfg);
        apply rows_mkPage).
  assert (Htotal : forall p r,
             apiFetchCalls Date_value cfg net (mkQuery from to ext p n)
             = Resolved r ->
             total r
             = Z.of_nat (List.length
                 (filter (call_matches Date_value (mkQuery from to ext 1 n))
                         MOCK_CALLS))).
  { intros p r Hr. rewrite (apiFetchCalls_mock _ _ _ _ _ _ _ _ Hcfg) in Hr.
    apply Resolved_inj in Hr. rewrite <- Hr. apply total_mkPage. }
  revert Hpages Hpage Htotal.
  generalize (filter (call_matches Date_value (mkQuery from to ext 1 n))
                     MOCK_CALLS).
  intros matching Hpages Hpage Htotal.
  unfold totalPages, Math_ceil_div in Hpages.
  destruct (n =? 0) eqn:E; [apply Z.eqb_eq in E; lia|].
  cbn [option_map] in Hpages. injection Hpages as Hpages.
  pose proof (ceil_covers (Z.of_nat (List.length matching)) n Hn) as Hceil.
  assert (Hcover : Z.of_nat (List.length matching) <= pages * n) by nia.
  destruct (slices_concat matching n pages Hn Hcover) as [Hall Hpast].
  split; [exact Hall|]. split; [|exact Htotal].
  intros p Hp. rewrite Hpage. apply Hpast; lia.
Qed.

Lemma pages_cover_the_result_witness :
  pages_read (fun _ => None) mock_cfg Reject "" "" "1001" 10 4
  = filter (call_matches (fun _ => None) (mkQuery "" "" "1001" 1 10)) MOCK_CALLS.
Proof.
  apply (pages_cover_the_result (fun _ => None) mock_cfg Reject
           "" "" "1001" 10 4 eq_refl); [lia|].
  vm_compute. reflexivity.
Defined.

Lemma filter_none {A : Type} (p : A -> bool) (l : list A) :
  (forall x, p x = false) -> filter p l = [].
Proof.
  intros H. induction l as [|x l IH]; [reflexivity|].
  cbn [filter]. now rewrite H.
Qed.

(** X4.  Whatever page and page size are asked for, every row the mock
    fetch returns is a record of the data set that passes the filter; with
    an extension given, its source or its destination is that extension. *)
Theorem fetched_rows_match_the_filter
  (Date_value : string -> option Z) (cfg : config) (net : response page_result)
  (from to ext : string) (p n : Z) (r : page_result) (c : cdr) :
  useMock cfg = true ->
  apiFetchCalls Date_value cfg net (mkQuery from to ext p n) = Resolved r ->
  In c (rows r) ->
  In c MOCK_CALLS
  /\ call_matches Date_value (mkQuery from to ext p n) c = true
  /\ (ext <> "" -> src c = ext \/ dst c = ext).
Proof.
  intros Hcfg Hr Hc.
  rewrite (apiFetchCalls_mock _ _ _ _ _ _ _ _ Hcfg) in Hr.
  apply Resolved_inj in Hr. rewrite <- Hr, rows_mkPage in Hc.
  apply slice_incl, filter_In in Hc as [Hin Hm].
  split; [exact Hin|]. split; [exact Hm|].
  intros Hext. unfold call_matches in Hm. cbn [q_ext] in Hm.
  apply andb_prop in Hm as [Hm _]. apply andb_prop in Hm as [Hm _].
  apply orb_prop in Hm as [Hm|Hm]; [apply orb_prop in Hm as [Hm|Hm]|].
  - apply String.eqb_eq in Hm. contradiction.
  - left. now apply String.eqb_eq.
  - right. now apply String.eqb_eq.
Qed.

Lemma fetched_rows_match_the_filter_witness :
  src (mock_call 0) = "1001" \/ dst (mock_call 0) = "1001".
Proof.
  refine (proj2 (proj2 (fetched_rows_match_the_filter
            (fun _ => None) mock_cfg Reject "" "" "1001" 1 10
            (match apiFetchCalls (fun _ => None) mock_cfg Reject
                                 (mkQuery "" "" "1001" 1 10) with
             | Resolved r => r
             | Rejected => mkPage [] 0
             end)
            (mock_call 0) eq_refl _ _)) _).
  - vm_compute. reflexivity.
  - vm_compute. left. reflexivity.
  - discriminate.
Defined.

(** X5.  A from-date or a to-date that is given but does not parse as a
    date matches nothing: the mock fetch returns no row and a total of 0,
    for every page and page size. *)
Theorem unparsable_date_matches_nothing
  (Date_value : string -> option Z) (cfg : config) (net : response page_result)
  (from to ext : string) (p n : Z) :
  useMock cfg = true ->
  (from <> "" /\ Date_value from = None) \/ (to <> "" /\ Date_value to = None) ->
  apiFetchCalls Date_value cfg net (mkQuery from to ext p n)
  = Resolved (mkPage [] 0).
Proof.
  intros Hcfg Hbad.
  rewrite (apiFetchCalls_mock _ _ _ _ _ _ _ _ Hcfg).
  rewrite (filter_none (call_matches Date_value (mkQuery from to ext 1 n))).
  - now rewrite slice_of_nil.
  - intros c. unfold call_matches, date_ge, date_le. cbn [q_from q_to q_ext].
    destruct Hbad as [[Hne Hnone]|[Hne Hnone]]; rewrite Hnone;
      apply String.eqb_neq in Hne; rewrite Hne.
    + destruct (Date_value (calldate c)); cbn [orb];
        now rewrite andb_false_r.
    + destruct (Date_value (calldate c)); cbn [orb];
        now rewrite andb_false_r.
Qed.

Lemma unparsable_date_matches_nothing_witness :
  apiFetchCalls (fun s => if String.eqb s "soon" then None else Some 0)
                mock_cfg Reject (mkQuery "soon" "" "" 1 20)
  = Resolved (mkPage [] 0).
Proof.
  apply (unparsable_date_matches_nothing
           (fun s => if String.eqb s "soon" then None else Some 0)
           mock_cfg Reject "soon" "" "" 1 20 eq_refl).
  left. split; [discriminate|reflexivity].
Defined.

(** ** Loading the list *)

Lemma new_objects_spec (l : list fields) :
  forall st, exists rows,
    new_objects l st
    = Some (rows, mkApp (MOCK_EXTENSIONS st) (data st) (audit st) (role st)
                        (clock st) (fresh st + List.length l))
    /\ shown rows = map Some l
    /\ forall r, In r rows ->
         exists x, r = Obj x /\ (fresh st <= oid x < fresh st + List.length l)%nat.
Proof.
  induction l as [|f l IH]; intros st.
  - exists []. cbn [new_objects ret List.length]. rewrite Nat.add_0_r.
    split; [now destruct st|]. split; [reflexivity|]. contradiction.
  - cbn [new_objects]. unfold bind at 1, new_object.
    destruct (IH (mkApp (MOCK_EXTENSIONS st) (data st) (audit st) (role st)
                        (clock st) (S (fresh st)))) as [rows [E [Hs Ho]]].
    unfold bind at 1. rewrite E. cbn [MOCK_EXTENSIONS data audit role clock fresh].
    exists (Obj (mkObj (fresh st) f) :: rows). unfold ret.
    split; [do 3 f_equal; cbn [List.length]; lia|].
    split; [cbn [shown map]; fold (shown rows); now rewrite Hs|].
    intros r [<-|Hr].
    + exists (mkObj (fresh st) f). split; [reflexivity|]. cbn. lia.
    + destruct (Ho r Hr) as [x [-> Hx]]. exists x. split; [reflexivity|].
      cbn [fresh List.length] in *. lia.
Qed.

(** X6.  Loading in mock mode replaces whatever the panel showed by the
    records of the store, in the order of the store.  The store and the log
    are not touched, and every displayed object is a new one: none existed
    before the load. *)
Theorem load_shows_the_store
  (cfg : config) (net : response (list fields)) (st : appstate) :
  useMock cfg = true ->
  exists st',
    load cfg net st = Some (tt, st')
    /\ shown (data st') = stored (MOCK_EXTENSIONS st)
    /\ MOCK_EXTENSIONS st' = MOCK_EXTENSIONS st
    /\ audit st' = audit st
    /\ heap_ok st' = true
    /\ forall r, In (Obj r) (data st') -> (fresh st <= oid r)%nat.
Proof.
  intros Hcfg. unfold load, apiFetchExtensions. rewrite Hcfg.
  unfold structuredClone, bind at 1 2, get.
  destruct (new_objects_spec (map props (MOCK_EXTENSIONS st)) st)
    as [rows [E [Hs Ho]]].
  unfold bind at 1. rewrite E. unfold ret, setData.
  cbn [MOCK_EXTENSIONS data audit role clock fresh].
  eexists. split; [reflexivity|].
  cbn [MOCK_EXTENSIONS data audit fresh].
  split; [rewrite Hs; unfold stored; now rewrite map_map|].
  split; [reflexivity|]. split; [reflexivity|]. split.
  - unfold heap_ok. cbn [data fresh]. apply forallb_forall. intros r Hr.
    destruct (Ho r Hr) as [x [-> Hx]]. apply Nat.ltb_lt. lia.
  - intros r Hr. destruct (Ho (Obj r) Hr) as [x [Hx Hb]].
    injection Hx as ->. lia.
Qed.

Lemma load_shows_the_store_witness :
  exists st',
    load mock_cfg Reject app_init = Some (tt, st')
    /\ shown (data st') = stored (MOCK_EXTENSIONS app_init).
Proof.
  destruct (load_shows_the_store mock_cfg Reject app_init eq_refl)
    as [st' [E [S _]]].
  exists st'. now split.
Defined.

(** ** The mock store *)

Lemma fold_max_attained (l : list obj) :
  Forall (fun e => finite (key e)) l ->
  forall a m,
    fold_left num_max (map (fun e => to_number (id (props e))) l) (Fin a) = Fin m ->
    m = a \/ exists e, In e l /\ key e = Some (Fin m).
Proof.
  induction 1 as [|e l [z Hz] _ IH]; intros a m Hm.
  - cbn in Hm. injection Hm as <-. now left.
  - cbn [map fold_left] in Hm. unfold key in Hz. rewrite Hz in Hm.
    cbn [to_number num_max] in Hm.
    destruct (IH _ _ Hm) as [->|[e' [Hin Hk]]].
    + destruct (Z.max_spec a z) as [[_ ->]|[_ ->]]; [|now left].
      right. exists e. split; [now left|exact Hz].
    + right. exists e'. split; [now right|exact Hk].
Qed.

Lemma safe_integers_finite (l : list obj) :
  Forall (fun e => safe_integer (key e)) l ->
  Forall (fun e => finite (key e)) l.
Proof.
  apply Forall_impl. intros e [z [Hz _]]. now exists z.
Qed.

Lemma next_id_of_mock_create
  (cfg : config) (net : response (option fields)) (payload : fields)
  (st : appstate) :
  useMock cfg = true ->
  MOCK_EXTENSIONS st <> [] ->
  Forall (fun e => finite (key e)) (MOCK_EXTENSIONS st) ->
  id payload = None ->
  exists row st' m,
    apiCreateExtension cfg net payload st = Some (Resolved (Obj row), st')
    /\ MOCK_EXTENSIONS st' = (MOCK_EXTENSIONS st ++ [row])%list
    /\ key row = Some (Fin (m + 1))
    /\ (forall e z, In e (MOCK_EXTENSIONS st) -> key e = Some (Fin z) -> z <= m).
Proof.
  intros Hcfg Hne Hf Hid.
  destruct (Math_max_store _ Hne Hf) as [m [Hmax Hle]].
  unfold apiCreateExtension. rewrite Hcfg.
  unfold bind, get, ret, set_store, new_object.
  cbn [MOCK_EXTENSIONS data audit role clock fresh]. rewrite Hmax.
  cbn [num_succ]. eexists. eexists. exists m.
  split; [reflexivity|]. cbn [MOCK_EXTENSIONS].
  split; [reflexivity|].
  split; [unfold key; cbn [props spread id]; now rewrite Hid|exact Hle].
Qed.

(** X7.  On a store that is not empty and whose identifiers are safe
    integers (of magnitude at most 2^53 - 1, so that adding one is exact in
    the code's double arithmetic), a mock create with a payload that carries
    no identifier appends one record at the end of the store and leaves the
    others as they are; its identifier is one more than the largest
    identifier of the store, which is itself a safe integer; its technology
    is the payload's when the payload has that key, the empty text included,
    and PJSIP only when the key is missing; its other fields are the
    payload's. *)
Theorem mock_create_appends_next_id
  (cfg : config) (net : response (option fields)) (payload : fields)
  (st : appstate) :
  useMock cfg = true ->
  MOCK_EXTENSIONS st <> [] ->
  Forall (fun e => safe_integer (key e)) (MOCK_EXTENSIONS st) ->
  id payload = None ->
  exists row st' m,
    apiCreateExtension cfg net payload st = Some (Resolved (Obj row), st')
    /\ MOCK_EXTENSIONS st' = (MOCK_EXTENSIONS st ++ [row])%list
    /\ data st' = data st /\ audit st' = audit st
    /\ key row = Some (Fin (m + 1))
    /\ - MAX_SAFE_INTEGER <= m <= MAX_SAFE_INTEGER
    /\ (exists e, In e (MOCK_EXTENSIONS st) /\ key e = Some (Fin m))
    /\ (forall e z, In e (MOCK_EXTENSIONS st) -> key e = Some (Fin z) -> z <= m)
    /\ tech (props row) = match tech payload with
                          | Some t => Some t
                          | None => Some "PJSIP"
                          end
    /\ name (props row) = name payload
    /\ callerid (props row) = callerid payload
    /\ voicemail (props row) = voicemail payload
    /\ vm_email (props row) = vm_email payload.
Proof.
  intros Hcfg Hne Hs Hid.
  pose proof (safe_integers_finite _ Hs) as Hf.
  destruct (Math_max_store _ Hne Hf) as [m [Hmax Hle]].
  assert (Hatt : exists e, In e (MOCK_EXTENSIONS st) /\ key e = Some (Fin m)).
  { destruct (MOCK_EXTENSIONS st) as [|e l] eqn:El; [congruence|].
    inversion Hf as [|? ? [z Hz] Hf']; subst.
    unfold Math_max in Hmax. cbn [map fold_left] in Hmax.
    unfold key in Hz. rewrite Hz in Hmax. cbn [to_number num_max] in Hmax.
    destruct (fold_max_attained l Hf' _ _ Hmax) as [->|[e' [Hin Hk]]].
    - exists e. split; [now left|exact Hz].
    - exists e'. split; [now right|exact Hk]. }
  unfold apiCreateExtension. rewrite Hcfg.
  unfold bind, get, ret, set_store, new_object.
  cbn [MOCK_EXTENSIONS data audit role clock fresh]. rewrite Hmax.
  cbn [num_succ]. eexists. eexists. exists m.
  split; [reflexivity|]. cbn [MOCK_EXTENSIONS data audit].
  split; [reflexivity|]. split; [reflexivity|]. split; [reflexivity|].
  split; [unfold key; cbn [props spread id]; now rewrite Hid|].
  split.
  { destruct Hatt as [e [He Hk]]. rewrite Forall_forall in Hs.
    destruct (Hs e He) as [z [Hz Hb]]. rewrite Hz in Hk.
    now injection Hk as <-. }
  split; [exact Hatt|]. split; [exact Hle|].
  cbn [props spread tech name callerid voicemail vm_email over or_default].
  split; [now destruct (tech payload)|].
  repeat split; match goal with |- over None ?x = _ => now destruct x end.
Qed.

Lemma mock_create_appends_next_id_witness :
  exists row st',
    apiCreateExtension mock_cfg Reject
                       (ExtensionModal None [SetName "Lobby"; SetTech ""])
                       loaded
    = Some (Resolved (Obj row), st')
    /\ key row = Some (Fin 1004)
    /\ tech (props row) = Some "".
Proof.
  destruct (mock_create_appends_next_id mock_cfg Reject
              (ExtensionModal None [SetName "Lobby"; SetTech ""]) loaded
              eq_refl ltac:(discriminate)
              ltac:(repeat constructor; eexists;
                    (split; [reflexivity|unfold MAX_SAFE_INTEGER; lia]))
              eq_refl)
    as [row [st' [m [E [S [_ [_ [K [_ [[e [He Hk]] [Hle [T _]]]]]]]]]]]].
  exists row, st'. split; [exact E|]. split; [|exact T].
  rewrite K. do 2 f_equal.
  assert (Hm : m = 1003).
  { cbn in He. destruct He as [<-|[<-|[<-|[]]]]; cbn in Hk; injection Hk as <-;
      try reflexivity;
      [specialize (Hle (mkObj 2 (mock_row 1003 "Support" "Support <1003>" false ""))
                       1003 ltac:(cbn; tauto) eq_refl); lia ..]. }
  now rewrite Hm.
Defined.

Lemma fold_max_neg_inf (l : list obj) :
  (forall e, In e l -> key e = Some NegInf) ->
  fold_left num_max (map (fun e => to_number (id (props e))) l) NegInf = NegInf.
Proof.
  induction l as [|e l IH]; intros H; [reflexivity|].
  cbn [map fold_left]. pose proof (H e (or_introl eq_refl)) as He.
  unfold key in He. rewrite He. cbn [to_number num_max].
  apply IH. intros e' He'. apply H. now right.
Qed.

(** X8.  On an empty store a mock create with a payload that carries no
    identifier gives the record the identifier -Infinity, and so does every
    later create for as long as the store holds only such records: the
    identifiers of created records are then all equal. *)
Theorem mock_create_on_empty_store
  (cfg : config) (net : response (option fields)) (payload : fields)
  (st : appstate) :
  useMock cfg = true ->
  (forall e, In e (MOCK_EXTENSIONS st) -> key e = Some NegInf) ->
  id payload = None ->
  exists row st',
    apiCreateExtension cfg net payload st = Some (Resolved (Obj row), st')
    /\ key row = Some NegInf
    /\ MOCK_EXTENSIONS st' = (MOCK_EXTENSIONS st ++ [row])%list
    /\ (forall e, In e (MOCK_EXTENSIONS st') -> key e = Some NegInf).
Proof.
  intros Hcfg Hall Hid.
  unfold apiCreateExtension. rewrite Hcfg.
  unfold bind, get, ret, set_store, new_object.
  cbn [MOCK_EXTENSIONS data audit role clock fresh].
  unfold Math_max. rewrite (fold_max_neg_inf _ Hall). cbn [num_succ].
  eexists. eexists. split; [reflexivity|]. cbn [MOCK_EXTENSIONS].
  assert (K : key (mkObj (fresh st)
                (spread (mkFields (Some NegInf)
                                  (Some (or_default (tech payload) "PJSIP"))
                                  None None None None None) payload))
              = Some NegInf)
    by (unfold key; cbn [props spread id]; now rewrite Hid).
  split; [exact K|]. split; [reflexivity|].
  intros e He. apply in_app_or in He as [He|[<-|[]]]; [now apply Hall|exact K].
Qed.

Lemma mock_create_on_empty_store_witness :
  exists row st',
    apiCreateExtension mock_cfg Reject (ExtensionModal None [SetName "A"]) orphaned
    = Some (Resolved (Obj row), st')
    /\ key row = Some NegInf.
Proof.
  destruct (mock_create_on_empty_store mock_cfg Reject
              (ExtensionModal None [SetName "A"]) orphaned eq_refl
              ltac:(intros e []) eq_refl)
    as [row [st' [E [K _]]]].
  exists row, st'. now split.
Defined.

Lemma filter_twice {A : Type} (p : A -> bool) (l : list A) :
  filter p (filter p l) = filter p l.
Proof.
  induction l as [|x l IH]; [reflexivity|].
  cbn [filter]. destruct (p x) eqn:E; [|exact IH].
  cbn [filter]. rewrite E. now f_equal.
Qed.

(** X9.  On a store of distinct integer identifiers, the mock delete
    resolves with [ok: true], removes the record carrying the identifier and
    no other, keeps the order of the rest, and touches neither the list of
    the panel nor the log; deleting the same identifier once more changes
    nothing. *)
Theorem mock_delete_removes_one_record
  (cfg : config) (net : response ack) (k : option num) (st : appstate) :
  useMock cfg = true ->
  finite k ->
  NoDup (map key (MOCK_EXTENSIONS st)) ->
  exists st',
    apiDeleteExtension cfg net k st = Some (Resolved (mkAck true), st')
    /\ MOCK_EXTENSIONS st'
       = filter (fun e => negb (strict_eq (id (props e)) k)) (MOCK_EXTENSIONS st)
    /\ (forall e, In e (MOCK_EXTENSIONS st')
                  <-> In e (MOCK_EXTENSIONS st) /\ key e <> k)
    /\ data st' = data st /\ audit st' = audit st
    /\ apiDeleteExtension cfg net k st' = Some (Resolved (mkAck true), st').
Proof.
  intros Hcfg Hk N. rewrite apiDeleteExtension_mock by assumption.
  eexists. split; [reflexivity|]. cbn [MOCK_EXTENSIONS data audit].
  split; [reflexivity|]. split; [|split; [reflexivity|split; [reflexivity|]]].
  - intros e. rewrite filter_In. split; intros [Hin Hne]; (split; [exact Hin|]).
    + intros E. fold (key e) in Hne.
      rewrite (proj2 (strict_eq_finite _ _ Hk) E) in Hne. discriminate.
    + destruct (strict_eq (id (props e)) k) eqn:E; [|reflexivity].
      apply (strict_eq_finite _ _ Hk) in E. contradiction.
  - rewrite apiDeleteExtension_mock;
      cbn [MOCK_EXTENSIONS data audit role clock fresh];
      [|assumption|assumption|now apply distinct_keys_filter].
    now rewrite filter_twice.
Qed.

Lemma mock_delete_removes_one_record_witness :
  exists st',
    apiDeleteExtension mock_cfg Reject (Some (Fin 1002)) loaded
    = Some (Resolved (mkAck true), st')
    /\ map key (MOCK_EXTENSIONS st') = [Some (Fin 1001); Some (Fin 1003)].
Proof.
  destruct (mock_delete_removes_one_record mock_cfg Reject (Some (Fin 1002))
              loaded eq_refl (ex_intro _ 1002 eq_refl)
              ltac:(repeat constructor; cbn; intuition discriminate))
    as [st' [E [S _]]].
  exists st'. split; [exact E|]. rewrite S. reflexivity.
Defined.

(** X10.  On a store that is not empty and holds distinct identifiers that
    are safe integers (of magnitude at most 2^53 - 1, so that the identifier
    a create computes is exact and new), creating a record in mock mode and
    then deleting the identifier the create returned leaves the store
    exactly as it was before the two calls; the identifier returned is held
    by no record of the store before the create. *)
Theorem mock_create_then_delete
  (cfg : config) (net : response (option fields)) (net' : response ack)
  (payload : fields) (st : appstate) :
  useMock cfg = true ->
  MOCK_EXTENSIONS st <> [] ->
  Forall (fun e => safe_integer (key e)) (MOCK_EXTENSIONS st) ->
  NoDup (map key (MOCK_EXTENSIONS st)) ->
  id payload = None ->
  exists row st1 st2,
    apiCreateExtension cfg net payload st = Some (Resolved (Obj row), st1)
    /\ (forall e, In e (MOCK_EXTENSIONS st) -> key e <> key row)
    /\ apiDeleteExtension cfg net' (key row) st1
       = Some (Resolved (mkAck true), st2)
    /\ MOCK_EXTENSIONS st2 = MOCK_EXTENSIONS st.
Proof.
  intros Hcfg Hne Hs N Hid.
  pose proof (safe_integers_finite _ Hs) as Hf.
  destruct (next_id_of_mock_create cfg net payload st Hcfg Hne Hf Hid)
    as [row [st1 [m [E [S [K Hle]]]]]].
  exists row, st1.
  assert (Hfin : finite (key row)) by (rewrite K; now exists (m + 1)).
  assert (Hnew : forall e, In e (MOCK_EXTENSIONS st) -> key e <> key row).
  { intros e He Hk. rewrite Forall_forall in Hf.
    destruct (Hf e He) as [z Hz]. specialize (Hle e z He Hz).
    rewrite Hz, K in Hk. injection Hk as ->. lia. }
  assert (N1 : NoDup (map key (MOCK_EXTENSIONS st1))).
  { rewrite S, map_app. cbn [map].
    apply (Permutation_NoDup (Permutation_cons_append _ _)).
    constructor; [|exact N]. intros Hin.
    apply in_map_iff in Hin as [e [He Hin]]. now apply (Hnew e). }
  rewrite (apiDeleteExtension_mock cfg net' (key row) st1 Hcfg Hfin N1).
  eexists. split; [exact E|]. split; [exact Hnew|]. split; [reflexivity|].
  cbn [MOCK_EXTENSIONS]. rewrite S, filter_app. cbn [filter].
  fold (key row). rewrite (strict_eq_refl_finite _ Hfin). cbn [negb].
  rewrite app_nil_r. apply (filter_no_hit (key row)).
  intros e He. destruct (strict_eq (id (props e)) (key row)) eqn:Eq;
    [|reflexivity].
  apply (strict_eq_finite _ _ Hfin) in Eq. now elim (Hnew e He).
Qed.

Lemma mock_create_then_delete_witness :
  exists row st1 st2,
    apiCreateExtension mock_cfg Reject (ExtensionModal None [SetName "Lobby"])
                       loaded
    = Some (Resolved (Obj row), st1)
    /\ (forall e, In e (MOCK_EXTENSIONS loaded) -> key e <> key row)
    /\ apiDeleteExtension mock_cfg Reject (key row) st1
       = Some (Resolved (mkAck true), st2)
    /\ MOCK_EXTENSIONS st2 = MOCK_EXTENSIONS loaded.
Proof.
  apply (mock_create_then_delete mock_cfg Reject Reject
           (ExtensionModal None [SetName "Lobby"]) loaded eq_refl).
  - discriminate.
  - repeat constructor; eexists;
      (split; [reflexivity|unfold MAX_SAFE_INTEGER; lia]).
  - repeat constructor; cbn; intuition discriminate.
  - reflexivity.
Defined.

Lemma over_twice {A : Type} (x y : option A) : over (over x y) y = over x y.
Proof. now destruct y. Qed.

Lemma spread_twice (a b : fields) : spread (spread a b) b = spread a b.
Proof.
  unfold spread. cbn [id tech name callerid voicemail vm_email __optimistic].
  now rewrite !over_twice.
Qed.

(** X11.  On a store of distinct integer identifiers, the mock update of an
    identifier the store holds, with a payload that does not change the
    identifier, resolves with the merged record: the fields of the payload
    over those of the stored record.  That record takes the place of the
    stored one; the store keeps its length, the identifiers of all its
    records and every other record; the list of the panel and the log are
    not touched; and the same update made again leaves the contents of the
    store as they are. *)
Theorem mock_update_merges_one_record
  (cfg : config) (net : response (option fields)) (k : option num)
  (payload : fields) (st : appstate) (e0 : obj) :
  useMock cfg = true ->
  finite k ->
  NoDup (map key (MOCK_EXTENSIONS st)) ->
  In e0 (MOCK_EXTENSIONS st) ->
  key e0 = k ->
  over k (id payload) = k ->
  exists merged st',
    apiUpdateExtension cfg net k payload st = Some (Resolved (Obj merged), st')
    /\ props merged = spread (props e0) payload
    /\ In merged (MOCK_EXTENSIONS st')
    /\ List.length (MOCK_EXTENSIONS st') = List.length (MOCK_EXTENSIONS st)
    /\ map key (MOCK_EXTENSIONS st') = map key (MOCK_EXTENSIONS st)
    /\ (forall i e, nth_error (MOCK_EXTENSIONS st) i = Some e -> key e <> k ->
                    nth_error (MOCK_EXTENSIONS st') i = Some e)
    /\ data st' = data st /\ audit st' = audit st
    /\ exists again st'',
         apiUpdateExtension cfg net k payload st'
         = Some (Resolved (Obj again), st'')
         /\ stored (MOCK_EXTENSIONS st'') = stored (MOCK_EXTENSIONS st').
Proof.
  intros Hcfg Hk N Hin Hkey Hpay.
  rewrite (apiUpdateExtension_mock cfg net k payload st e0) by assumption.
  set (merged := mkObj (fresh st) (spread (props e0) payload)).
  set (swap := fun e : obj => if strict_eq (id (props e)) k then merged else e).
  assert (Km : key merged = k).
  { unfold key, merged. cbn [props spread id]. fold (key e0). now rewrite Hkey. }
  assert (Kswap : forall e, key (swap e) = key e).
  { intros e. unfold swap. destruct (strict_eq (id (props e)) k) eqn:E;
      [|reflexivity].
    apply (strict_eq_finite _ _ Hk) in E. now rewrite Km. }
  assert (Hmerged : In merged (map swap (MOCK_EXTENSIONS st))).
  { apply in_map_iff. exists e0. split; [|exact Hin]. unfold swap.
    fold (key e0). now rewrite Hkey, (strict_eq_refl_finite k Hk). }
  assert (Hkeys : map key (map swap (MOCK_EXTENSIONS st))
                  = map key (MOCK_EXTENSIONS st)).
  { rewrite map_map. now apply map_ext. }
  exists merged. eexists. split; [reflexivity|].
  cbn [MOCK_EXTENSIONS data audit]. fold swap.
  split; [reflexivity|]. split; [exact Hmerged|].
  split; [apply length_map|]. split; [exact Hkeys|].
  split; [|split; [reflexivity|split; [reflexivity|]]].
  - intros i e He Hne. rewrite nth_error_map, He. cbn [option_map].
    unfold swap. destruct (strict_eq (id (props e)) k) eqn:E; [|reflexivity].
    apply (strict_eq_finite _ _ Hk) in E. contradiction.
  - rewrite (apiUpdateExtension_mock cfg net k payload _ merged);
      cbn [MOCK_EXTENSIONS data audit role clock fresh]; fold swap;
      try assumption; [|now rewrite Hkeys].
    eexists. eexists. split; [reflexivity|].
    cbn [MOCK_EXTENSIONS]. rewrite stored_replace.
    rewrite <- (map_id (stored (map swap (MOCK_EXTENSIONS st)))) at 2.
    apply map_ext_in. intros y Hy.
    destruct (key_is k y) eqn:E; [|reflexivity].
    unfold stored in Hy. apply in_map_iff in Hy as [e [<- He]].
    apply in_map_iff in He as [e1 [<- He1]].
    cbn [key_is] in E. cbn [props]. unfold merged at 1. cbn [props].
    rewrite spread_twice. unfold swap in *.
    destruct (strict_eq (id (props e1)) k) eqn:E1; [reflexivity|].
    rewrite E1 in E. discriminate.
Qed.

Lemma mock_update_merges_one_record_witness :
  exists merged st',
    apiUpdateExtension mock_cfg Reject (Some (Fin 1002))
      (ExtensionModal None [SetName "Sales EU"]) loaded
    = Some (Resolved (Obj merged), st')
    /\ name (props merged) = Some "Sales EU"
    /\ callerid (props merged) = Some ""
    /\ map key (MOCK_EXTENSIONS st') = map key (MOCK_EXTENSIONS loaded).
Proof.
  destruct (mock_update_merges_one_record mock_cfg Reject (Some (Fin 1002))
              (ExtensionModal None [SetName "Sales EU"]) loaded
              (mkObj 1 (mock_row 1002 "Sales" "Sales <1002>" true
                                 "sales@example.com"))
              eq_refl (ex_intro _ 1002 eq_refl)
              ltac:(repeat constructor; cbn; intuition discriminate)
              ltac:(cbn; tauto) eq_refl eq_refl)
    as [merged [st' [E [P [_ [_ [K _]]]]]]].
  exists merged, st'. split; [exact E|]. rewrite P. now repeat split.
Defined.

(** ** Requests that succeed *)

(** X12.  When the request of a create is answered with a record, the
    placeholder gives its place at the head of the list to a new object
    holding the record the server sent, whatever the form held, the rest of
    the list is as before, the log has gained the create_extension entry and
    no other, and the displayed objects are still older than the next
    identity. *)
Theorem answered_create_shows_the_answer
  (cfg : config) (f : fields) (dt rnd : Z) (form : fields)
  (st : appstate) :
  useMock cfg = false ->
  heap_ok st = true ->
  exists st',
    createExt cfg (Resolve (Some f)) dt rnd form st = Some (tt, st')
    /\ shown (data st') = Some f :: shown (data st)
    /\ (exists o, List.hd_error (data st') = Some (Obj o)
                  /\ props o = f /\ (fresh st < oid o)%nat)
    /\ List.tl (data st') = data st
    /\ audit st'
       = mkEntry "create_extension"
                 (tmpl_str (name form) ++ " (" ++ tmpl_str (callerid form) ++ ")")
                 (clock st) (role st)
         :: firstn 199 (audit st)
    /\ MOCK_EXTENSIONS st' = MOCK_EXTENSIONS st
    /\ heap_ok st' = true.
Proof.
  intros Hcfg Hheap.
  assert (Hkeep : forall (g : fields) (v : value),
             map (fun r => if same_object r (mkObj (fresh st) g) then v else r)
                 (data st) = data st).
  { intros g v. rewrite <- (map_id (data st)) at 2. apply map_ext_in.
    intros r Hr. unfold heap_ok in Hheap. rewrite forallb_forall in Hheap.
    specialize (Hheap r Hr). destruct r as [|x]; [reflexivity|].
    cbn [same_object oid]. apply Nat.ltb_lt in Hheap.
    destruct (Nat.eqb_spec (oid x) (fresh st)); [lia|reflexivity]. }
  run_handler. rewrite Hcfg. run_handler.
  cbn [map same_object oid]. rewrite Nat.eqb_refl, Hkeep.
  eexists. split; [reflexivity|].
  cbn [data audit MOCK_EXTENSIONS shown map tl hd_error].
  fold (shown (data st)).
  split; [reflexivity|].
  split; [eexists; split; [reflexivity|]; cbn [props oid]; split;
          [reflexivity|lia]|].
  split; [reflexivity|].
  split; [apply audit_updater_cons|]. split; [reflexivity|].
  unfold heap_ok. cbn [data fresh forallb].
  apply andb_true_intro. split; [apply Nat.ltb_lt; cbn; lia|].
  apply (heap_ok_weaken (fresh st)); [lia|exact Hheap].
Qed.

Lemma answered_create_shows_the_answer_witness :
  exists st',
    createExt remote_cfg (Resolve (Some (mock_row 1050 "Lobby" "Lobby <1050>" false "")))
              35 123456 (ExtensionModal None [SetName "Lobby"]) loaded
    = Some (tt, st')
    /\ shown (data st')
       = Some (mock_row 1050 "Lobby" "Lobby <1050>" false "") :: shown (data loaded).
Proof.
  destruct (answered_create_shows_the_answer remote_cfg
              (mock_row 1050 "Lobby" "Lobby <1050>" false "")
              35 123456 (ExtensionModal None [SetName "Lobby"]) loaded
              eq_refl eq_refl) as [st' [E [S _]]].
  exists st'. now split.
Defined.

(** X13.  When the request of an update is answered with a record, every
    displayed row carrying the identifier of the edited row shows the record
    the server sent, whatever was typed into the form, the other rows are
    untouched and in their places, and the log has gained the
    update_extension entry and no other. *)
Theorem answered_update_shows_the_answer
  (cfg : config) (f : fields) (dt : Z) (row : obj) (es : list edit)
  (st : appstate) :
  useMock cfg = false ->
  all_objects (data st) = true ->
  exists st',
    saveEdit cfg (Resolve (Some f)) dt row (ExtensionModal (Some row) es) st
    = Some (tt, st')
    /\ shown (data st')
       = map (fun y => if key_is (id (props row)) y then Some f else y)
             (shown (data st))
    /\ all_objects (data st') = true
    /\ audit st'
       = mkEntry "update_extension" (tmpl_num (id (props row)))
                 (clock st) (role st)
         :: firstn 199 (audit st)
    /\ MOCK_EXTENSIONS st' = MOCK_EXTENSIONS st.
Proof.
  intros Hcfg Hobj.
  run_handler. rewrite Hcfg.
  rewrite (replace_by_id_objects row _ (data st) Hobj).
  run_handler.
  rewrite replace_by_id_objects by (now apply all_objects_replace).
  rewrite replace_twice
    by (cbn [props spread id]; rewrite ExtensionModal_id; apply over_same).
  eexists. split; [reflexivity|]. cbn [data audit MOCK_EXTENSIONS].
  split; [apply shown_replace|].
  split; [now apply all_objects_replace|].
  split; [apply audit_updater_cons|reflexivity].
Qed.

Lemma answered_update_shows_the_answer_witness :
  exists st',
    saveEdit remote_cfg
             (Resolve (Some (mock_row 1002 "Sales EU" "Sales <1002>" true "")))
             60
             (mkObj 4 (mock_row 1002 "Sales" "Sales <1002>" true "sales@example.com"))
             (ExtensionModal
                (Some (mkObj 4 (mock_row 1002 "Sales" "Sales <1002>" true
                                         "sales@example.com")))
                [SetName "Sales EU"])
             loaded = Some (tt, st')
    /\ nth_error (shown (data st')) 1
       = Some (Some (mock_row 1002 "Sales EU" "Sales <1002>" true "")).
Proof.
  destruct (answered_update_shows_the_answer remote_cfg
              (mock_row 1002 "Sales EU" "Sales <1002>" true "") 60
              (mkObj 4 (mock_row 1002 "Sales" "Sales <1002>" true
                                 "sales@example.com"))
              [SetName "Sales EU"] loaded eq_refl eq_refl) as [st' [E [S _]]].
  exists st'. split; [exact E|]. rewrite S. reflexivity.
Defined.

Lemma splice1_length {A : Type} (l : list A) (i : nat) :
  (i < List.length l)%nat ->
  S (List.length (splice1 l i)) = List.length l.
Proof.
  revert i. induction l as [|x l IH]; intros i Hi; [cbn in Hi; lia|].
  destruct i as [|j]; [reflexivity|].
  cbn [splice1 List.length] in *. f_equal. apply IH. lia.
Qed.

(** X14.  A delete the user does not confirm does nothing at all, in mock
    mode and against a server alike, whatever the network would have
    answered: the handler returns before anything is awaited, no row is
    removed, nothing is logged and the store is untouched; no request has
    been made, for in mock mode the same delete, once confirmed, does take
    a record carrying the identifier out of the store.  A confirmed delete
    whose request is answered by a server removes every displayed row
    carrying the identifier, keeps the others in their order and logs the
    delete_extension entry and no other. *)
Theorem delete_declined_or_answered
  (cfg : config) (a : ack) (net : response ack) (dt : Z) (ident : option num)
  (st : appstate) :
  all_objects (data st) = true ->
  deleteExt cfg net dt false ident st = Some (tt, st)
  /\ deleteExt_start cfg net false ident st = Some (None, st)
  /\ (useMock cfg = true ->
      (exists e, In e (MOCK_EXTENSIONS st) /\ strict_eq (key e) ident = true) ->
      exists st',
        deleteExt cfg net dt true ident st = Some (tt, st')
        /\ S (List.length (MOCK_EXTENSIONS st'))
           = List.length (MOCK_EXTENSIONS st)
        /\ data st' = filter (fun r => negb (has_id ident r)) (data st))
  /\ (useMock cfg = false ->
      exists st',
        deleteExt cfg (Resolve a) dt true ident st = Some (tt, st')
        /\ data st' = filter (fun r => negb (has_id ident r)) (data st)
        /\ audit st'
           = mkEntry "delete_extension" (tmpl_num ident) (clock st) (role st)
             :: firstn 199 (audit st)
        /\ MOCK_EXTENSIONS st' = MOCK_EXTENSIONS st).
Proof.
  intros Hobj.
  split; [run_handler; now destruct st|].
  split; [run_handler; now destruct st|].
  split.
  - intros Hcfg [e [He Hk]]. run_handler. rewrite Hcfg.
    rewrite (remove_by_id_objects ident (data st) Hobj). run_handler.
    pose proof (findIndex_range (fun e => strict_eq (id (props e)) ident)
                                (MOCK_EXTENSIONS st)) as R.
    destruct (0 <=? findIndex (fun e => strict_eq (id (props e)) ident)
                              (MOCK_EXTENSIONS st)) eqn:E.
    + apply Z.leb_le in E. run_handler.
      eexists. split; [reflexivity|]. cbn [data MOCK_EXTENSIONS].
      split; [apply splice1_length; lia|reflexivity].
    + apply Z.leb_gt in E.
      assert (Ha : findIndex (fun e => strict_eq (id (props e)) ident)
                             (MOCK_EXTENSIONS st) = -1) by lia.
      pose proof (proj1 (findIndex_absent _ _) Ha e He) as Hn.
      unfold key in Hk. cbn beta in Hn. congruence.
  - intros Hcfg. run_handler. rewrite Hcfg.
    rewrite (remove_by_id_objects ident (data st) Hobj). run_handler.
    eexists. split; [reflexivity|]. cbn [data audit MOCK_EXTENSIONS].
    split; [reflexivity|]. split; [apply audit_updater_cons|reflexivity].
Qed.

Lemma delete_declined_or_answered_witness :
  (deleteExt mock_cfg Reject 10 false (Some (Fin 1002)) loaded
   = Some (tt, loaded)
   /\ exists st',
        deleteExt mock_cfg Reject 10 true (Some (Fin 1002)) loaded
        = Some (tt, st')
        /\ S (List.length (MOCK_EXTENSIONS st'))
           = List.length (MOCK_EXTENSIONS loaded))
  /\ (deleteExt remote_cfg Reject 10 false (Some (Fin 1002)) loaded
      = Some (tt, loaded)
      /\ exists st',
           deleteExt remote_cfg (Resolve (mkAck true)) 10 true
                     (Some (Fin 1002)) loaded
           = Some (tt, st')
           /\ map get_id (data st')
              = [Some (Some (Fin 1001)); Some (Some (Fin 1003))]).
Proof.
  split.
  - destruct (delete_declined_or_answered mock_cfg (mkAck true) Reject 10
                (Some (Fin 1002)) loaded eq_refl)
      as [D [_ [M _]]].
    split; [exact D|].
    destruct (M eq_refl
                (ex_intro _ (mkObj 1 (mock_row 1002 "Sales" "Sales <1002>" true
                                               "sales@example.com"))
                          (conj (or_intror (or_introl eq_refl)) eq_refl)))
      as [st' [E [L _]]].
    exists st'. now split.
  - destruct (delete_declined_or_answered remote_cfg (mkAck true) Reject 10
                (Some (Fin 1002)) loaded eq_refl)
      as [D [_ [_ R]]].
    split; [exact D|].
    destruct (R eq_refl) as [st' [E [S _]]].
    exists st'. split; [exact E|]. rewrite S. reflexivity.
Defined.

(** ** A list that holds [undefined] *)

Lemma replace_by_id_undefined (row : obj) (x : value) (d : list value) :
  In undefined d -> replace_by_id row x d = None.
Proof.
  unfold replace_by_id. induction d as [|r d IH]; intros H; [contradiction|].
  cbn [map_throw]. destruct r as [|o]; [reflexivity|].
  cbn [get_id]. destruct H as [H|H]; [discriminate|]. now rewrite (IH H).
Qed.

Lemma remove_by_id_undefined (k : option num) (d : list value) :
  In undefined d -> remove_by_id k d = None.
Proof.
  unfold remove_by_id. induction d as [|r d IH]; intros H; [contradiction|].
  cbn [filter_throw]. destruct r as [|o]; [reflexivity|].
  cbn [get_id]. destruct H as [H|H]; [discriminate|]. now rewrite (IH H).
Qed.

(** X15.  Once the list holds [undefined] in some cell, an update and a
    confirmed delete both throw in their first updater, whatever the mode,
    the row, the identifier and the answer: reading [id] of the cell fails.
    A create still goes through, because it compares objects and reads no
    property. *)
Theorem undefined_row_breaks_update_and_delete
  (cfg : config) (net : response (option fields)) (net' : response ack)
  (dt rnd : Z) (row : obj) (form : fields) (ident : option num)
  (st : appstate) :
  In undefined (data st) ->
  saveEdit cfg net dt row form st = None
  /\ deleteExt cfg net' dt true ident st = None
  /\ exists st', createExt cfg net dt rnd form st = Some (tt, st').
Proof.
  intros Hin. split; [|split].
  - run_panel. now rewrite (replace_by_id_undefined _ _ _ Hin).
  - run_panel. now rewrite (remove_by_id_undefined _ _ Hin).
  - run_handler. destruct (useMock cfg).
    + run_handler. eexists. reflexivity.
    + destruct net as [|[f|]]; run_handler; eexists; reflexivity.
Qed.

Lemma undefined_row_breaks_update_and_delete_witness :
  saveEdit mock_cfg Reject 0
           (mkObj 3 (mock_row 1001 "Reception" "Reception <1001>" true
                              "reception@example.com"))
           default_form
           (mkApp [] [undefined] [] "admin" 0 1) = None.
Proof.
  apply (undefined_row_breaks_update_and_delete mock_cfg Reject Reject 0 0
           (mkObj 3 (mock_row 1001 "Reception" "Reception <1001>" true
                              "reception@example.com"))
           default_form None (mkApp [] [undefined] [] "admin" 0 1)).
  cbn. now left.
Defined.

(** ** The placeholder is found by identity *)

Lemma map_one_cell {A : Type} (hit : A -> bool) (x y : A) (pre post : list A) :
  hit x = true ->
  (forall r, In r (pre ++ post) -> hit r = false) ->
  map (fun r => if hit r then y else r) (pre ++ x :: post) = (pre ++ y :: post)%list
  /\ filter (fun r => negb (hit r)) (pre ++ x :: post) = (pre ++ post)%list.
Proof.
  intros Hx Hrest.
  assert (Hpre : forall r, In r pre -> hit r = false)
    by (intros r Hr; apply Hrest, in_or_app; now left).
  assert (Hpost : forall r, In r post -> hit r = false)
    by (intros r Hr; apply Hrest, in_or_app; now right).
  assert (Hmap : forall l, (forall r, In r l -> hit r = false) ->
                           map (fun r => if hit r then y else r) l = l).
  { intros l Hl. rewrite <- (map_id l) at 2. apply map_ext_in.
    intros r Hr. now rewrite (Hl r Hr). }
  assert (Hfil : forall l, (forall r, In r l -> hit r = false) ->
                           filter (fun r => negb (hit r)) l = l).
  { induction l as [|r l IH]; intros Hl; [reflexivity|].
    cbn [filter]. rewrite (Hl r (or_introl eq_refl)). cbn [negb].
    f_equal. apply IH. intros r' Hr'. apply Hl. now right. }
  split.
  - rewrite map_app. cbn [map]. now rewrite Hx, (Hmap pre), (Hmap post).
  - rewrite filter_app. cbn [filter]. rewrite Hx. cbn [negb].
    now rewrite (Hfil pre), (Hfil post).
Qed.

(** X16.  Whatever has happened to the list while a create was in flight,
    when the create settles only the cell holding the placeholder object
    changes: on an answer it holds what the server sent, on a rejection it is
    taken out.  The cells before and after it keep their content and order,
    also those that carry the same identifier as the placeholder. *)
Theorem create_settles_on_the_placeholder_only
  (who : string) (form : fields) (optimistic : obj) (saved : value)
  (pre post : list value) (later : appstate) :
  data later = (pre ++ Obj optimistic :: post)%list ->
  (forall r, In r (pre ++ post) -> same_object r optimistic = false) ->
  (exists st',
     createExt_settle who form optimistic (Resolved saved) later = Some (tt, st')
     /\ data st' = (pre ++ saved :: post)%list
     /\ audit st' = audit later)
  /\ (exists st',
        createExt_settle who form optimistic Rejected later = Some (tt, st')
        /\ data st' = (pre ++ post)%list
        /\ audit st'
           = mkEntry "rollback_create_extension" (tmpl_str (name form))
                     (clock later) who
             :: firstn 199 (audit later)).
Proof.
  intros Hd Hrest.
  assert (Hself : same_object (Obj optimistic) optimistic = true)
    by (cbn; apply Nat.eqb_refl).
  destruct (map_one_cell (fun r => same_object r optimistic) (Obj optimistic)
              saved pre post Hself Hrest) as [Hmap Hfil].
  split; run_handler; rewrite Hd; (eexists; split; [reflexivity|]);
    cbn [data audit].
  - split; [exact Hmap|reflexivity].
  - split; [exact Hfil|apply audit_updater_cons].
Qed.

Lemma create_settles_on_the_placeholder_only_witness :
  exists st',
    createExt_settle "admin" default_form (mkObj 9 (mock_row 1001 "" "" false ""))
      (Resolved undefined)
      (mkApp [] [Obj (mkObj 3 (mock_row 1001 "Reception" "" true ""));
                 Obj (mkObj 9 (mock_row 1001 "" "" false ""))] [] "admin" 0 10)
    = Some (tt, st')
    /\ data st' = [Obj (mkObj 3 (mock_row 1001 "Reception" "" true "")); undefined].
Proof.
  destruct (create_settles_on_the_placeholder_only "admin" default_form
              (mkObj 9 (mock_row 1001 "" "" false "")) undefined
              [Obj (mkObj 3 (mock_row 1001 "Reception" "" true ""))] []
              (mkApp [] [Obj (mkObj 3 (mock_row 1001 "Reception" "" true ""));
                         Obj (mkObj 9 (mock_row 1001 "" "" false ""))]
                     [] "admin" 0 10)
              eq_refl)
    as [[st' [E [D _]]] _].
  - intros r [<-|[]]. reflexivity.
  - exists st'. now split.
Defined.

(** ** The editor *)

Lemma apply_edit_flag (f : fields) (e : edit) :
  __optimistic (apply_edit f e) = __optimistic f.
Proof. now destruct e. Qed.

(** Edits of two different fields can be swapped. *)
Lemma edits_commute (f : fields) (e1 e2 : edit) :
  same_field e1 e2 = false ->
  apply_edit (apply_edit f e1) e2 = apply_edit (apply_edit f e2) e1.
Proof.
  destruct f. destruct e1, e2; cbn; intros H; try discriminate; reflexivity.
Qed.

Lemma apply_edit_holds (f : fields) (e : edit) : holds (apply_edit f e) e.
Proof. now destruct e. Qed.

Lemma apply_edit_elsewhere (f : fields) (e e' : edit) :
  same_field e e' = false -> holds f e -> holds (apply_edit f e') e.
Proof.
  destruct e, e'; cbn; intros H; try discriminate; trivial.
Qed.

Lemma edits_elsewhere (e : edit) (post : list edit) :
  (forall e', In e' post -> same_field e e' = false) ->
  forall f, holds f e -> holds (fold_left apply_edit post f) e.
Proof.
  induction post as [|e' post IH]; intros Hp f Hf; [exact Hf|].
  cbn [fold_left]. apply IH.
  - intros x Hx. apply Hp. now right.
  - apply apply_edit_elsewhere; [apply Hp; now left|exact Hf].
Qed.

(** X17.  The form the editor submits carries the identifier and the
    pending flag of the row it was opened on, and none when it was opened
    empty, whatever was typed.  The value submitted for a field is the last
    one typed into that field, whatever was typed into other fields
    afterwards, and a field nothing was typed into is submitted as the
    editor was opened with it.  Two successive edits of two different
    fields, anywhere in what is typed, give the same form in either order,
    for every pair of different fields. *)
Theorem editor_keeps_the_identifier (initial : option obj) (es : list edit) :
  id (ExtensionModal initial es)
  = match initial with Some r => id (props r) | None => None end
  /\ __optimistic (ExtensionModal initial es)
     = match initial with Some r => __optimistic (props r) | None => None end
  /\ (forall v, name (ExtensionModal initial (es ++ [SetName v])) = Some v)
  /\ (forall v, tech (ExtensionModal initial (es ++ [SetTech v])) = Some v)
  /\ (forall v, callerid (ExtensionModal initial (es ++ [SetCallerid v])) = Some v)
  /\ (forall v, voicemail (ExtensionModal initial (es ++ [SetVoicemail v])) = Some v)
  /\ (forall v, vm_email (ExtensionModal initial (es ++ [SetVmEmail v])) = Some v)
  /\ (forall v w,
        ExtensionModal initial (es ++ [SetName v; SetCallerid w])
        = ExtensionModal initial (es ++ [SetCallerid w; SetName v]))
  /\ (forall e post,
        (forall e', In e' post -> same_field e e' = false) ->
        holds (ExtensionModal initial (es ++ e :: post)) e)
  /\ (forall e,
        (forall e', In e' es -> same_field e e' = false) ->
        holds (initial_form initial) e ->
        holds (ExtensionModal initial es) e)
  /\ (forall e1 e2 post,
        same_field e1 e2 = false ->
        ExtensionModal initial (es ++ e1 :: e2 :: post)
        = ExtensionModal initial (es ++ e2 :: e1 :: post)).
Proof.
  split; [rewrite ExtensionModal_id; now destruct initial|].
  split.
  { unfold ExtensionModal.
    assert (H : forall f, __optimistic (fold_left apply_edit es f) = __optimistic f).
    { induction es as [|e l IH]; intros f; [reflexivity|].
      cbn [fold_left]. now rewrite IH, apply_edit_flag. }
    rewrite H. now destruct initial. }
  unfold ExtensionModal.
  do 6 (split; [intros; rewrite !fold_left_app; cbn [fold_left]; reflexivity|]).
  split; [|split].
  - intros e post Hp. rewrite fold_left_app. cbn [fold_left].
    apply edits_elsewhere; [exact Hp|apply apply_edit_holds].
  - intros e He Hi. now apply edits_elsewhere.
  - intros e1 e2 post Hd. rewrite !fold_left_app. cbn [fold_left].
    now rewrite (edits_commute _ e1 e2 Hd).
Qed.

Lemma editor_keeps_the_identifier_witness :
  ExtensionModal None [SetName "Lobby"; SetTech "SIP"; SetName "Hall";
                       SetVoicemail true; SetCallerid "Hall <1050>"]
  = mkFields None (Some "SIP") (Some "Hall") (Some "Hall <1050>") (Some true)
             (Some "") None
  /\ holds (ExtensionModal None
              [SetName "Lobby"; SetTech "SIP"; SetName "Hall";
               SetVoicemail true; SetCallerid "Hall <1050>"])
           (SetName "Hall")
  /\ ExtensionModal None [SetName "Lobby"; SetVoicemail true; SetTech "SIP"]
     = ExtensionModal None [SetName "Lobby"; SetTech "SIP"; SetVoicemail true].
Proof.
  split; [reflexivity|].
  destruct (editor_keeps_the_identifier None [SetName "Lobby"; SetTech "SIP"])
    as (_ & _ & _ & _ & _ & _ & _ & _ & L & _ & _).
  destruct (editor_keeps_the_identifier None [SetName "Lobby"])
    as (_ & _ & _ & _ & _ & _ & _ & _ & _ & _ & S).
  split.
  - apply (L (SetName "Hall") [SetVoicemail true; SetCallerid "Hall <1050>"]).
    intros e' [<-|[<-|[]]]; reflexivity.
  - apply (S (SetVoicemail true) (SetTech "SIP") [] eq_refl).
Defined.

(** ** The realtime feed and the status panel *)

Lemma onmessage_cases (JSON_parse : string -> option json) (data : string)
  (status : json) :
  onmessage JSON_parse data status
  = match JSON_parse data with
    | Some msg => if recognizable msg then msg else status
    | None => status
    end.
Proof.
  unfold onmessage, recognizable. destruct (JSON_parse data) as [msg|];
    [|reflexivity].
  destruct (prop msg "trunks") as [t|]; [|reflexivity].
  destruct (truthy t); [reflexivity|].
  destruct (prop msg "queues") as [q|]; [|reflexivity].
  now destruct (truthy q).
Qed.

Lemma feed_fold_recognizable (JSON_parse : string -> option json)
  (msgs : list string) :
  forall status,
    recognizable status = true ->
    recognizable (fold_left (fun s d => onmessage JSON_parse d s) msgs status)
    = true
    /\ (fold_left (fun s d => onmessage JSON_parse d s) msgs status = status
        \/ exists d, In d msgs
             /\ JSON_parse d
                = Some (fold_left (fun s d => onmessage JSON_parse d s) msgs status)).
Proof.
  induction msgs as [|d msgs IH]; intros status Hs.
  - cbn. split; [exact Hs|now left].
  - cbn [fold_left]. rewrite onmessage_cases.
    destruct (JSON_parse d) as [msg|] eqn:Ep.
    + destruct (recognizable msg) eqn:Er.
      * destruct (IH msg Er) as [Hr [Hsame|[d' [Hin Hd]]]].
        -- split; [exact Hr|]. right. exists d. split; [now left|].
           now rewrite Hsame.
        -- split; [exact Hr|]. right. exists d'. split; [now right|exact Hd].
      * destruct (IH status Hs) as [Hr [Hsame|[d' [Hin Hd]]]].
        -- split; [exact Hr|now left].
        -- split; [exact Hr|]. right. exists d'. split; [now right|exact Hd].
    + destruct (IH status Hs) as [Hr [Hsame|[d' [Hin Hd]]]].
      * split; [exact Hr|now left].
      * split; [exact Hr|]. right. exists d'. split; [now right|exact Hd].
Qed.

(** X18.  Whatever arrives on the socket, the snapshot the feed holds is
    either the static mock or the parsed value of one of the messages, and
    it always passes the test of the handler: its trunks or its queues are
    truthy.  With mock mode on or no socket address it is the static mock. *)
Theorem feed_snapshot_is_always_recognizable
  (JSON_parse : string -> option json) (cfg : config) (msgs : list string) :
  recognizable (useAriStatus JSON_parse cfg msgs) = true
  /\ (useAriStatus JSON_parse cfg msgs = MOCK_STATUS
      \/ exists d, In d msgs
           /\ JSON_parse d = Some (useAriStatus JSON_parse cfg msgs))
  /\ (useMock cfg = true \/ ariWS cfg = "" ->
      useAriStatus JSON_parse cfg msgs = MOCK_STATUS).
Proof.
  unfold useAriStatus.
  destruct (useMock cfg || String.eqb (ariWS cfg) "") eqn:E.
  - split; [reflexivity|]. split; [now left|reflexivity].
  - destruct (feed_fold_recognizable JSON_parse msgs MOCK_STATUS eq_refl)
      as [Hr Hfrom].
    split; [exact Hr|]. split; [exact Hfrom|].
    apply orb_false_elim in E as [Em Ew].
    intros [H|H]; [congruence|]. rewrite H in Ew. discriminate.
Qed.

(** X19.  The live feed keeps no history: after a message that parses to a
    recognizable value, followed by any messages that do not, the snapshot
    is that value, whatever came before it; and a message delivered twice
    in a row has the effect of one delivery. *)
Theorem feed_keeps_the_last_recognizable_message
  (JSON_parse : string -> option json) (cfg : config)
  (before after : list string) (d : string) (msg : json) :
  useMock cfg = false ->
  ariWS cfg <> "" ->
  JSON_parse d = Some msg ->
  recognizable msg = true ->
  (forall d', In d' after ->
     match JSON_parse d' with
     | Some m => recognizable m = false
     | None => True
     end) ->
  useAriStatus JSON_parse cfg (before ++ d :: after) = msg
  /\ useAriStatus JSON_parse cfg (before ++ [d; d])
     = useAriStatus JSON_parse cfg (before ++ [d]).
Proof.
  intros Hm Hw Hp Hr Hafter. unfold useAriStatus. rewrite Hm.
  apply String.eqb_neq in Hw. rewrite Hw. cbn [orb].
  rewrite !fold_left_app. cbn [fold_left]. rewrite !onmessage_cases, Hp, Hr.
  split; [|reflexivity].
  clear before. induction after as [|d' after IH]; [reflexivity|].
  cbn [fold_left]. rewrite onmessage_cases.
  pose proof (Hafter d' (or_introl eq_refl)) as Hd'.
  destruct (JSON_parse d') as [m|]; [rewrite Hd'|];
    apply IH; intros x Hx; apply Hafter; now right.
Qed.

Lemma feed_keeps_the_last_recognizable_message_witness :
  useAriStatus
    (fun s => if String.eqb s "T" then Some (JObj [("trunks", JArr [])])
              else None)
    (mkConfig "" "" false "wss://pbx.example.com/ari/ws")
    ["x"; "T"; "y"]
  = JObj [("trunks", JArr [])].
Proof.
  apply (feed_keeps_the_last_recognizable_message
           (fun s => if String.eqb s "T" then Some (JObj [("trunks", JArr [])])
                     else None)
           (mkConfig "" "" false "wss://pbx.example.com/ari/ws")
           ["x"] ["y"] "T" (JObj [("trunks", JArr [])])
           eq_refl ltac:(discriminate) eq_refl eq_refl).
  intros d' [<-|[]]. exact I.
Defined.

Lemma prop_throws_on_null (v : json) (k : string) :
  prop v k = None <-> v = JNull.
Proof. destruct v; cbn; split; congruence. Qed.







(** X21.  A message the feed accepts although it lacks the trunks key or
    the queues key becomes the snapshot, and [StatusPanel] throws on that
    snapshot. *)
Theorem partial_message_breaks_the_status_panel
  (greater : option json -> Z -> bool) (JSON_parse : string -> option json)
  (data : string) (status : json) (members : list (string * json)) :
  JSON_parse data = Some (JObj members) ->
  recognizable (JObj members) = true ->
  lookup "trunks" members = None \/ lookup "queues" members = None ->
  onmessage JSON_parse data status = JObj members
  /\ StatusPanel greater (onmessage JSON_parse data status) = None.
Proof.
  intros Hp Hr Hmiss. rewrite onmessage_cases, Hp, Hr.
  split; [reflexivity|]. unfold StatusPanel, array_map. cbn [prop].
  destruct Hmiss as [-> | Hq]; [reflexivity|]. rewrite Hq.
  now destruct (match lookup "trunks" members with
                | Some (JArr items) => _
                | _ => None
                end).
Qed.

Lemma partial_message_breaks_the_status_panel_witness :
  StatusPanel (fun _ _ => false)
    (onmessage (fun _ => Some (JObj [("trunks", JArr [trunk "AU-East" "Registered" 38])]))
               "trunks only" MOCK_STATUS)
  = None.
Proof.
  apply (partial_message_breaks_the_status_panel (fun _ _ => false)
           (fun _ => Some (JObj [("trunks", JArr [trunk "AU-East" "Registered" 38])]))
           "trunks only" MOCK_STATUS
           [("trunks", JArr [trunk "AU-East" "Registered" 38])]
           eq_refl eq_refl).
  right. reflexivity.
Defined.

(** ** More on the CSV export *)

Lemma string_length_append (s t : string) :
  String.length (s ++ t) = (String.length s + String.length t)%nat.
Proof. induction s as [|a s IH]; cbn; [reflexivity|now rewrite IH]. Qed.

Lemma append_cancel_r (s t u : string) : s ++ u = t ++ u -> s = t.
Proof.
  revert t. induction s as [|a s IH]; intros [|b t] H; cbn in H.
  - reflexivity.
  - apply (f_equal String.length) in H. cbn in H.
    rewrite string_length_append in H. lia.
  - apply (f_equal String.length) in H. cbn in H.
    rewrite string_length_append in H. lia.
  - injection H as -> H. f_equal. now apply IH.
Qed.

Lemma double_quotes_injective (s t : string) :
  double_quotes s = double_quotes t -> s = t.
Proof.
  revert t. induction s as [|a s IH]; intros [|b t] H; cbn in H.
  - reflexivity.
  - destruct (Ascii.eqb b dquote); discriminate.
  - destruct (Ascii.eqb a dquote); discriminate.
  - destruct (Ascii.eqb_spec a dquote) as [->|Ha],
             (Ascii.eqb_spec b dquote) as [->|Hb].
    + injection H as H. f_equal. now apply IH.
    + injection H as H _. congruence.
    + injection H as H _. congruence.
    + injection H as -> H. f_equal. now apply IH.
Qed.

Lemma includes_append (c : ascii) (s t : string) :
  includes c (s ++ t) = includes c s || includes c t.
Proof.
  induction s as [|a s IH]; cbn; [reflexivity|].
  now rewrite IH, orb_assoc.
Qed.

Lemma includes_double_quotes (c : ascii) (s : string) :
  c <> dquote -> includes c (double_quotes s) = includes c s.
Proof.
  intros Hc. induction s as [|a s IH]; [reflexivity|].
  cbn [double_quotes includes].
  destruct (Ascii.eqb_spec a dquote) as [->|Ha]; cbn [includes]; rewrite IH.
  - destruct (Ascii.eqb_spec dquote c) as [E|_]; [congruence|reflexivity].
  - reflexivity.
Qed.

Lemma includes_quoted (c : ascii) (s : string) :
  c <> dquote ->
  includes c (String dquote (double_quotes s ++ String dquote ""))
  = includes c s.
Proof.
  intros Hc. cbn [includes]. rewrite includes_append, includes_double_quotes
    by exact Hc.
  cbn [includes].
  destruct (Ascii.eqb_spec dquote c) as [E|_]; [congruence|].
  cbn [orb]. now rewrite orb_false_r.
Qed.

(** X22.  [escape] never writes two different texts alike: when two values
    give the same field, they have the same text. *)
Theorem escape_is_injective (v w : option json) :
  escape v = escape w -> text_of v = text_of w.
Proof.
  unfold escape.
  assert (Hc : comma <> dquote) by discriminate.
  assert (Hn : newline <> dquote) by discriminate.
  set (s := text_of v). set (t := text_of w).
  destruct (includes comma s || includes newline s) eqn:Es,
           (includes comma t || includes newline t) eqn:Et; intros H.
  - injection H as H. apply append_cancel_r in H.
    now apply double_quotes_injective.
  - exfalso. rewrite <- (includes_quoted comma s Hc),
      <- (includes_quoted newline s Hn), H, Et in Es. discriminate.
  - exfalso. rewrite <- (includes_quoted comma t Hc),
      <- (includes_quoted newline t Hn), <- H, Es in Et. discriminate.
  - exact H.
Qed.

Lemma escape_is_injective_witness :
  text_of (Some (JNum 47)) = text_of (Some (JStr "47")).
Proof.
  apply (escape_is_injective (Some (JNum 47)) (Some (JStr "47"))).
  reflexivity.
Defined.






Lemma occurrences_append (c : ascii) (s t : string) :
  occurrences c (s ++ t) = (occurrences c s + occurrences c t)%nat.
Proof.
  induction s as [|a s IH]; cbn [append occurrences]; [reflexivity|].
  rewrite IH. lia.
Qed.

Lemma occurrences_none (c : ascii) (s : string) :
  includes c s = false -> occurrences c s = 0%nat.
Proof.
  induction s as [|a s IH]; [reflexivity|]. cbn [includes occurrences].
  intros H. apply orb_false_elim in H as [Ha Hs]. now rewrite Ha, IH.
Qed.

Lemma occurrences_double_quotes (c : ascii) (s : string) :
  c <> dquote -> occurrences c (double_quotes s) = occurrences c s.
Proof.
  intros Hc. induction s as [|a s IH]; [reflexivity|].
  cbn [double_quotes]. destruct (Ascii.eqb_spec a dquote) as [->|Ha];
    cbn [occurrences]; rewrite IH; [|reflexivity].
  destruct (Ascii.eqb_spec dquote c); [congruence|reflexivity].
Qed.

Lemma occurrences_escape (v : option json) :
  includes newline (text_of v) = false ->
  occurrences newline (escape v) = 0%nat.
Proof.
  intros H. unfold escape.
  destruct (includes comma (text_of v) || includes newline (text_of v)).
  - cbn [occurrences]. rewrite occurrences_append, occurrences_double_quotes
      by discriminate.
    rewrite (occurrences_none _ _ H). reflexivity.
  - now apply occurrences_none.
Qed.

Lemma occurrences_join (c : ascii) (sep : string) (l : list string) :
  (forall x, In x l -> occurrences c x = 0%nat) ->
  occurrences c (join sep l) = ((List.length l - 1) * occurrences c sep)%nat.
Proof.
  induction l as [|x l IH]; intros H; [reflexivity|].
  destruct l as [|y l].
  - cbn [join List.length]. rewrite (H x (or_introl eq_refl)). lia.
  - change (join sep (x :: y :: l)) with (x ++ sep ++ join sep (y :: l)).
    rewrite !occurrences_append, (H x (or_introl eq_refl)).
    rewrite IH by (intros z Hz; apply H; now right).
    cbn [List.length]. lia.
Qed.

(** X24.  When no key of the first record and no exported text holds a line
    break, the export has exactly one line break per record: the header
    line is followed by one line for every record of the page. *)
Theorem csv_has_one_line_per_record (rows : list (list (string * json))) :
  (forall h, In h (headers_of rows) -> includes newline h = false) ->
  (forall r h, In r rows -> In h (headers_of rows) ->
               includes newline (text_of (lookup h r)) = false) ->
  occurrences newline (csv_text rows) = List.length rows.
Proof.
  intros Hh Hv. unfold csv_text.
  assert (Hline : forall fields,
             (forall x, In x fields -> occurrences newline x = 0%nat) ->
             occurrences newline (join "," fields) = 0%nat).
  { intros fields Hf. rewrite occurrences_join by exact Hf.
    cbn [occurrences]. destruct (Ascii.eqb_spec ","%char newline);
      [discriminate|]. lia. }
  rewrite occurrences_join.
  - cbn [List.length occurrences]. rewrite length_map, Ascii.eqb_refl. lia.
  - intros x [<-|Hx].
    + apply Hline. intros h Hin. apply occurrences_none. now apply Hh.
    + apply in_map_iff in Hx as [r [<- Hr]]. apply Hline.
      intros f Hf. apply in_map_iff in Hf as [h [<- Hin]].
      apply occurrences_escape. now apply Hv.
Qed.

Lemma csv_has_one_line_per_record_witness :
  occurrences newline (snd (export_csv (firstn 3 MOCK_CALLS))) = 3%nat.
Proof.
  apply (csv_has_one_line_per_record (map cdr_object (firstn 3 MOCK_CALLS))).
  - intros h Hin. cbn in Hin.
    destruct Hin as [<-|[<-|[<-|[<-|[<-|[<-|[]]]]]]]; reflexivity.
  - intros r h Hr Hin. cbn in Hr, Hin.
    destruct Hr as [<-|[<-|[<-|[]]]];
      destruct Hin as [<-|[<-|[<-|[<-|[<-|[<-|[]]]]]]]; reflexivity.
Defined.

(** ** Search in the extensions panel *)

Lemma lower_space (c : ascii) : is_space (lower c) = is_space c.
Proof.
  unfold lower. destruct (_ && _)%nat eqn:E; [|reflexivity].
  apply andb_prop in E as [E1 E2].
  apply Nat.leb_le in E1. apply Nat.leb_le in E2.
  unfold is_space. rewrite nat_ascii_embedding by lia.
  destruct (Nat.leb_spec 9 (nat_of_ascii c + 32)),
           (Nat.leb_spec (nat_of_ascii c + 32) 13),
           (Nat.eqb_spec (nat_of_ascii c + 32) 32),
           (Nat.leb_spec 9 (nat_of_ascii c)),
           (Nat.leb_spec (nat_of_ascii c) 13),
           (Nat.eqb_spec (nat_of_ascii c) 32); cbn; try reflexivity; lia.
Qed.

Lemma toLowerCase_append (s t : string) :
  toLowerCase (s ++ t) = toLowerCase s ++ toLowerCase t.
Proof. induction s as [|a s IH]; cbn; [reflexivity|now rewrite IH]. Qed.

Lemma toLowerCase_trimStart (s : string) :
  toLowerCase (trimStart s) = trimStart (toLowerCase s).
Proof.
  induction s as [|a s IH]; [reflexivity|].
  cbn [trimStart toLowerCase]. rewrite lower_space.
  now destruct (is_space a).
Qed.

Lemma toLowerCase_of_list (l : list ascii) :
  toLowerCase (string_of_list_ascii l) = string_of_list_ascii (map lower l).
Proof. induction l as [|a l IH]; cbn; [reflexivity|now rewrite IH]. Qed.

Lemma list_of_toLowerCase (s : string) :
  list_ascii_of_string (toLowerCase s) = map lower (list_ascii_of_string s).
Proof. induction s as [|a s IH]; cbn; [reflexivity|now rewrite IH]. Qed.

Lemma toLowerCase_reverse (s : string) :
  toLowerCase (reverse s) = reverse (toLowerCase s).
Proof.
  unfold reverse. now rewrite toLowerCase_of_list, list_of_toLowerCase, map_rev.
Qed.

Lemma toLowerCase_trim (s : string) :
  toLowerCase (trim s) = trim (toLowerCase s).
Proof.
  unfold trim.
  now rewrite toLowerCase_reverse, toLowerCase_trimStart, toLowerCase_reverse,
    toLowerCase_trimStart.
Qed.

Lemma starts_with_append (t s u : string) :
  starts_with t s = true -> starts_with t (s ++ u) = true.
Proof.
  revert s. induction t as [|a t IH]; intros [|b s] H; cbn in *;
    try reflexivity; try discriminate.
  apply andb_prop in H as [-> H]. cbn. now apply IH.
Qed.

Lemma includes_text_append_l (t s u : string) :
  includes_text t s = true -> includes_text t (s ++ u) = true.
Proof.
  induction s as [|b s IH]; intros H.
  - cbn in H. rewrite orb_false_r in H. destruct t; [|discriminate].
    destruct u; reflexivity.
  - cbn [includes_text] in H. apply orb_prop in H as [H|H].
    + pose proof (starts_with_append _ (String b s) u H) as H'.
      cbn [append] in H'. cbn [append includes_text]. now rewrite H'.
    + cbn [append includes_text]. rewrite (IH H). apply orb_true_r.
Qed.

Lemma includes_text_append_r (t s u : string) :
  includes_text t u = true -> includes_text t (s ++ u) = true.
Proof.
  intros H. induction s as [|b s IH]; [exact H|].
  cbn [append includes_text]. rewrite IH. apply orb_true_r.
Qed.

Lemma filter_throw_objects (p : obj -> bool) (d : list value) :
  all_objects d = true ->
  filter_throw (fun r => match r with
                         | undefined => None
                         | Obj o => Some (p o)
                         end) d
  = Some (filter (fun r => match r with
                           | undefined => false
                           | Obj o => p o
                           end) d).
Proof.
  induction d as [|r d IH]; intros H; [reflexivity|].
  cbn [all_objects forallb] in H. apply andb_prop in H as [Hr Hd].
  destruct r as [|o]; [discriminate|].
  cbn [filter_throw filter]. fold (all_objects d) in Hd. now rewrite (IH Hd).
Qed.

(** X25.  The search of the extensions panel: a box that holds nothing but
    blanks shows the whole list; otherwise, on a list of objects, it shows
    rows of the list, in their order, and a row whose name holds the typed
    text is among them; upper and lower case of the typed text make no
    difference; and on a list with an [undefined] cell the search throws. *)
Theorem search_is_a_case_blind_filter (q : string) (d : list value) :
  all_objects d = true ->
  exists shown_rows,
    filtered q d = Some shown_rows
    /\ (toLowerCase (trim q) = "" -> shown_rows = d)
    /\ (exists keep, shown_rows = filter keep d)
    /\ (forall r nm,
          In (Obj r) d -> name (props r) = Some nm ->
          includes_text (toLowerCase (trim q)) (toLowerCase nm) = true ->
          In (Obj r) shown_rows)
    /\ (forall q', toLowerCase q' = toLowerCase q ->
                   filtered q' d = Some shown_rows)
    /\ (toLowerCase (trim q) <> "" ->
        forall pre post, filtered q (pre ++ undefined :: post) = None).
Proof.
  intros Hobj. unfold filtered.
  destruct (String.eqb_spec (toLowerCase (trim q)) "") as [E|E].
  - exists d. split; [reflexivity|]. split; [reflexivity|].
    split; [exists (fun _ => true); symmetry; apply filter_true|].
    split; [tauto|]. split; [|contradiction].
    intros q' Hq. rewrite toLowerCase_trim, Hq, <- toLowerCase_trim, E.
    reflexivity.
  - rewrite (filter_throw_objects _ d Hobj). eexists.
    split; [reflexivity|]. split; [contradiction|].
    split; [eexists; reflexivity|]. split; [|split].
    + intros r nm Hin Hnm Hinc. apply filter_In. split; [exact Hin|].
      unfold search_text. rewrite Hnm. cbn [join joined_str].
      rewrite !toLowerCase_append. apply includes_text_append_r.
      apply includes_text_append_r. now apply includes_text_append_l.
    + intros q' Hq. rewrite toLowerCase_trim, Hq, <- toLowerCase_trim.
      destruct (String.eqb_spec (toLowerCase (trim q)) ""); [contradiction|].
      apply filter_throw_objects, Hobj.
    + intros _ pre post. induction pre as [|r pre IH]; [reflexivity|].
      cbn [app filter_throw]. destruct r; [reflexivity|]. now rewrite IH.
Qed.

Lemma search_is_a_case_blind_filter_witness :
  exists shown_rows,
    filtered " SALES " (data loaded) = Some shown_rows
    /\ shown shown_rows
       = [Some (mock_row 1002 "Sales" "Sales <1002>" true "sales@example.com")].
Proof.
  destruct (search_is_a_case_blind_filter " SALES " (data loaded) eq_refl)
    as [rows [E _]].
  exists rows. split; [exact E|].
  assert (H : filtered " SALES " (data loaded)
              = Some [Obj (mkObj 4 (mock_row 1002 "Sales" "Sales <1002>" true
                                             "sales@example.com"))])
    by (vm_compute; reflexivity).
  rewrite H in E. injection E as <-. reflexivity.
Defined.

(** ** Whole sessions in mock mode *)

Lemma creates_checked_sound (cs : list click) :
  forall st, creates_checked cs st = true -> creates_on_records cs st.
Proof.
  induction cs as [|c cs IH]; intros st H; [exact I|].
  cbn [creates_checked] in H. apply andb_prop in H as [Hc Hrest].
  cbn [creates_on_records]. split.
  - destruct c; try exact I. destruct (MOCK_EXTENSIONS st); [discriminate|].
    discriminate.
  - intros st' E. rewrite E in Hrest. now apply IH.
Qed.

(** X26.  A session in mock mode, from the loading of the fixtures through
    any sequence of creates, edits and deletes in which no create meets an
    empty store, never throws, and at its end the panel shows exactly the
    records of the store, each once; the identifiers of the store are then
    integers, no two of them equal. *)
Theorem session_keeps_panel_and_store_in_step (cs : list click) :
  creates_checked cs loaded = true ->
  exists st,
    session cs = Some st
    /\ Permutation (shown (data st)) (stored (MOCK_EXTENSIONS st))
    /\ NoDup (map key (MOCK_EXTENSIONS st))
    /\ Forall (fun e => finite (key e)) (MOCK_EXTENSIONS st).
Proof.
  intros H. apply creates_checked_sound in H.
  destruct (clicks_keep_mirror cs loaded loaded_mirrors H) as [st [E M]].
  exists st. split.
  - unfold session, bind.
    assert (L : load mock_cfg Reject app_init = Some (tt, loaded))
      by (vm_compute; reflexivity).
    rewrite L. now rewrite E.
  - destruct M as [_ Hp Hf Hn]. now repeat split.
Qed.

Lemma session_keeps_panel_and_store_in_step_witness :
  exists st,
    session [New 123456 [SetName "Lobby"]; EditRow 0 [SetVoicemail true];
             DeleteRow 1; DeleteRow 0; New 7 [SetName "Door"]] = Some st
    /\ Permutation (shown (data st)) (stored (MOCK_EXTENSIONS st)).
Proof.
  destruct (session_keeps_panel_and_store_in_step
              [New 123456 [SetName "Lobby"]; EditRow 0 [SetVoicemail true];
               DeleteRow 1; DeleteRow 0; New 7 [SetName "Door"]])
    as [st [E [P _]]].
  - vm_compute. reflexivity.
  - exists st. now split.
Defined.
